(** * Kofi staker checker: paginated retrieval, event cache, aggregation
      and the per-address decision

    A shallow embedding of [kofi_staker_checker.py].  Python values that
    come out of [response.json()] / [json.load] are modelled by the
    inductive type [json]; Python integers are unbounded and are modelled
    by [Z]; exceptions are modelled by the [outcome] type; the remote
    endpoint is a script of HTTP outcomes, one per request; the file
    system is a finite map from paths to file contents.

    Not modelled: console output other than that of
    [calculate_cumulative_amount], the sleep between two page requests,
    the interpreter's limit on the number of digits in int/str
    conversions, and non-ASCII decimal digits and white space in
    [int(str)]. *)

From Stdlib Require Import ZArith Bool Ascii String List Lia.
From Stdlib Require Import Floats.SpecFloat.
From stdpp Require Import base option list sorting strings gmap pretty.

Local Open Scope string_scope.
Local Open Scope Z_scope.
Local Open Scope list_scope.
Set Warnings "-register-all".

(** ** Python values and exceptions *)

(** The values [json.loads] produces: [None], [bool], [int], [float],
    [str], [list] and [dict].  A dict keeps its insertion order, which
    iteration observes, so it is an association list; [json.loads] never
    builds a dict with a repeated key, and [dict_get] reads the first
    binding of a key. *)
Inductive json : Type :=
| JNull
| JBool (b : bool)
| JInt (z : Z)
| JFloat (f : spec_float)
| JStr (s : string)
| JList (l : list json)
| JDict (d : list (string * json)).

(** The exception classes the script can meet. *)
Inductive exn : Type :=
| HTTPError
| RequestException
| JSONDecodeError
| AttributeError
| TypeError
| ValueError
| OverflowError
| KeyError
| OSError.

(** A computation either returns or raises. *)
Inductive outcome (A : Type) : Type :=
| Return (a : A)
| Raise (e : exn).
Arguments Return {A} a.
Arguments Raise {A} e.

(** Sequencing: the first exception raised ends the computation.  With
    these instances [x ← m; k] is stdpp's notation for it. *)
#[global] Instance outcome_ret : MRet outcome := fun A a => Return a.
#[global] Instance outcome_bind : MBind outcome := fun A B k m =>
  match m with
  | Return a => k a
  | Raise e => Raise e
  end.

Module Py.

(** [isinstance(v, dict)] *)
Definition is_dict (v : json) : bool :=
  match v with JDict _ => true | _ => false end.

(** [v is None] *)
Definition is_none (v : json) : bool :=
  match v with JNull => true | _ => false end.

(** [v == s] for a [str] [s]: only an equal [str] compares equal. *)
Definition eq_str (v : json) (s : string) : bool :=
  match v with JStr t => bool_decide (t = s) | _ => false end.

(** Truth value of [v], as tested by [if v] and [not v]. *)
Definition truthy (v : json) : bool :=
  match v with
  | JNull => false
  | JBool b => b
  | JInt z => negb (Z.eqb z 0)
  | JFloat (S754_zero _) => false
  | JFloat _ => true
  | JStr s => negb (bool_decide (s = EmptyString))
  | JList l => match l with [] => false | _ => true end
  | JDict d => match d with [] => false | _ => true end
  end.

Fixpoint dict_get (key : string) (d : list (string * json)) : option json :=
  match d with
  | [] => None
  | (k, v) :: rest => if bool_decide (k = key) then Some v else dict_get key rest
  end.

(** [key in d] for a dict. *)
Definition dict_has (key : string) (d : list (string * json)) : bool :=
  match dict_get key d with Some _ => true | None => false end.

(** [v.get(key)]: only a dict has the method; a missing key gives
    [None]. *)
Definition get (v : json) (key : string) : outcome json :=
  match v with
  | JDict d => Return (default JNull (dict_get key d))
  | _ => Raise AttributeError
  end.

(** [v.get(key, dflt)] *)
Definition get_default (v : json) (key : string) (dflt : json) : outcome json :=
  match v with
  | JDict d => Return (default dflt (dict_get key d))
  | _ => Raise AttributeError
  end.

(** *** [int(x)] *)

(** White space stripped by [int(str)] (the ASCII part of
    [str.isspace]). *)
Definition is_space (c : ascii) : bool :=
  let n := nat_of_ascii c in
  (Nat.leb 9 n && Nat.leb n 13) || (Nat.leb 28 n && Nat.leb n 32).

Definition digit_of (c : ascii) : option Z :=
  let n := nat_of_ascii c in
  if Nat.leb 48 n && Nat.leb n 57 then Some (Z.of_nat (n - 48)) else None.

(** Decimal digits, where one underscore may stand between two digits.
    [prev_digit] tells whether the previous character was a digit. *)
Fixpoint int_digits (cs : list ascii) (prev_digit : bool) (acc : Z) : option Z :=
  match cs with
  | [] => if prev_digit then Some acc else None
  | c :: rest =>
      match digit_of c with
      | Some d => int_digits rest true (10 * acc + d)
      | None =>
          if bool_decide (c = "_"%char) && prev_digit
          then int_digits rest false acc
          else None
      end
  end.

Definition strip (cs : list ascii) : list ascii :=
  let drop := fix drop (l : list ascii) : list ascii :=
    match l with
    | c :: rest => if is_space c then drop rest else l
    | [] => []
    end in
  rev (drop (rev (drop cs))).

(** [int(s)] for a [str]: white space around, an optional sign, then
    the digits.  [None] stands for [ValueError]. *)
Definition int_of_str (s : string) : option Z :=
  match strip (list_ascii_of_string s) with
  | "-"%char :: ds => Z.opp <$> int_digits ds false 0
  | "+"%char :: ds => int_digits ds false 0
  | ds => int_digits ds false 0
  end.

(** [int(f)] for a [float]: truncation toward zero; an infinity raises
    [OverflowError] and a NaN raises [ValueError]. *)
Definition int_of_float (f : spec_float) : outcome Z :=
  match f with
  | S754_zero _ => Return 0
  | S754_infinity _ => Raise OverflowError
  | S754_nan => Raise ValueError
  | S754_finite s m e =>
      let magnitude := Z.shiftl (Z.pos m) e in
      Return (if s then - magnitude else magnitude)
  end.

Definition int (v : json) : outcome Z :=
  match v with
  | JNull => Raise TypeError
  | JBool b => Return (if b then 1 else 0)
  | JInt z => Return z
  | JFloat f => int_of_float f
  | JStr s => match int_of_str s with Some z => Return z | None => Raise ValueError end
  | JList _ | JDict _ => Raise TypeError
  end.

(** *** Containers *)

(** [key in v]: a key of a dict, an element of a list, a substring of
    a [str]; the other values are not containers. *)
Definition contains (v : json) (key : string) : outcome bool :=
  match v with
  | JDict d => Return (dict_has key d)
  | JList l => Return (existsb (fun x => eq_str x key) l)
  | JStr s => Return (bool_decide (is_Some (String.index 0 key s)))
  | _ => Raise TypeError
  end.

(** [v[key]] for a [str] key. *)
Definition subscript (v : json) (key : string) : outcome json :=
  match v with
  | JDict d => match dict_get key d with Some x => Return x | None => Raise KeyError end
  | _ => Raise TypeError
  end.

(** The elements [list.extend(v)] appends: those of a list, the
    characters of a [str], the keys of a dict. *)
Definition iterate (v : json) : outcome (list json) :=
  match v with
  | JList l => Return l
  | JStr s => Return ((fun c => JStr (String c EmptyString)) <$> list_ascii_of_string s)
  | JDict d => Return ((fun kv => JStr (fst kv)) <$> d)
  | _ => Raise TypeError
  end.

(** [len(v)] *)
Definition len (v : json) : outcome Z :=
  match v with
  | JList l => Return (Z.of_nat (length l))
  | JStr s => Return (Z.of_nat (String.length s))
  | JDict d => Return (Z.of_nat (length d))
  | _ => Raise TypeError
  end.

End Py.

(** ** Aggregator: [KofiStakerChecker.calculate_cumulative_amount] *)

(** The three local counters of the function. *)
Record counters : Type := {
  total_amount : Z;
  processed_count : nat;
  malformed_data_count : nat
}.

(** How the body of the [try] ends when it does not raise: at one of the
    two [continue]s, or after the addition. *)
Inductive try_exit : Type :=
| Continue
| Added (amount : Z).

Definition try_body (event : json) : outcome try_exit :=
  event_data ← Py.get event "data";
  if negb (Py.is_dict event_data) then Return Continue
  else
    amount_str ← Py.get event_data "amount";
    if Py.is_none amount_str then Return Continue
    else
      amount ← Py.int amount_str;
      Return (Added amount).

(** One iteration of the [for] loop, with its two [except] clauses. *)
Definition loop_iteration (c : counters) (event : json) : counters :=
  match try_body event with
  | Return (Added amount) =>
      {| total_amount := total_amount c + amount;
         processed_count := S (processed_count c);
         malformed_data_count := malformed_data_count c |}
  | Return Continue =>
      {| total_amount := total_amount c;
         processed_count := processed_count c;
         malformed_data_count := S (malformed_data_count c) |}
  | Raise ValueError =>
      {| total_amount := total_amount c;
         processed_count := processed_count c;
         malformed_data_count := S (malformed_data_count c) |}
  | Raise _ =>
      {| total_amount := total_amount c;
         processed_count := processed_count c;
         malformed_data_count := S (malformed_data_count c) |}
  end.

Definition initial_counters : counters :=
  {| total_amount := 0; processed_count := 0; malformed_data_count := 0 |}.

(** The counters when the function reaches its [return]: untouched on
    the early return for an empty list, otherwise after the loop. *)
Definition final_counters (events : list json) : counters :=
  match events with
  | [] => initial_counters
  | _ => foldl loop_iteration initial_counters events
  end.

(** What the function prints. *)
Definition printed (events : list json) : list string :=
  match events with
  | [] => ["No events provided for amount calculation."]
  | _ =>
      let c := final_counters events in
      ["Calculating cumulative amount from " +:+ pretty (length events) +:+ " events..."]
      ++ (if bool_decide (0 < malformed_data_count c)%nat
          then ["Warning: Skipped " +:+ pretty (malformed_data_count c)
                +:+ " events due to missing or malformed 'amount' in data field."]
          else [])
      ++ ["Successfully processed " +:+ pretty (processed_count c)
          +:+ " events for amount calculation."]
  end.

(** The function: the value returned to the caller, and the lines
    written to standard output on the way. *)
Definition calculate_cumulative_amount (events : list json) : Z * list string :=
  (total_amount (final_counters events), printed events).

(** ** Query Executor: [KofiStakerChecker.execute_query] *)

(** What [session.post] meets on one request: no usable response
    (connection refused, timeout, ...), or a response with a status code
    and a body, which is JSON text or not. *)
Inductive http_reply : Type :=
| NoResponse
| Response (status : Z) (body : option json).

(** [raise_for_status] raises for the codes 400 to 599, [response.json()]
    for a body that is not JSON; the three [except] clauses print and
    re-raise. *)
Definition execute_query (reply : http_reply) : outcome json :=
  match reply with
  | NoResponse => Raise RequestException
  | Response status body =>
      if (400 <=? status)%Z && (status <? 600)%Z then Raise HTTPError
      else match body with
           | Some result => Return result
           | None => Raise JSONDecodeError
           end
  end.

(** ** Paginator: [KofiStakerChecker.fetch_all_events_by_type] *)

(** The [variables] sent with a request. *)
Record variables : Type := {
  var_event_type : string;
  var_limit : Z;
  var_offset : Z
}.

(** The local variables the [while] loop updates. *)
Record page_state : Type := {
  all_events_of_type : list json;
  offset : Z;
  page : Z
}.

(** How an iteration ends: at a [break], or at the end of the body. *)
Inductive iteration_exit : Type :=
| Break (all_events : list json)
| Next (st : page_state).

(** The body of the [try], for the reply the request of this iteration
    meets.  The branch for ['errors'] only prints after the subscript;
    [time.sleep] is left out. *)
Definition page_try (limit : Z) (st : page_state) (reply : http_reply)
  : outcome iteration_exit :=
  result ← execute_query reply;
  has_errors ← Py.contains result "errors";
  if has_errors : bool then
    _ ← Py.subscript result "errors";
    Return (Break (all_events_of_type st))
  else
    events_data ← Py.get_default result "data" (JDict []);
    if negb (Py.truthy events_data) then Return (Break (all_events_of_type st))
    else
      events_page ← Py.get_default events_data "events" (JList []);
      if negb (Py.truthy events_page) then Return (Break (all_events_of_type st))
      else
        items ← Py.iterate events_page;
        let all_events := all_events_of_type st ++ items in
        n ← Py.len events_page;
        if (n <? limit)%Z then Return (Break all_events)
        else Return (Next {| all_events_of_type := all_events;
                             offset := offset st + limit;
                             page := page st + 1 |}).

(** One iteration: [except Exception] breaks out of the loop.  An
    exception can only come before [extend] has run, so the accumulator
    is then the one the iteration started with. *)
Definition page_iteration (limit : Z) (st : page_state) (reply : http_reply)
  : iteration_exit :=
  match page_try limit st reply with
  | Return out => out
  | Raise _ => Break (all_events_of_type st)
  end.

(** Where the loop stands once the replies of a script are used up. *)
Inductive run_state : Type :=
| Running (st : page_state)
| Stopped (all_events : list json).

(** The [while True] loop against a script of replies, one per request:
    the requests sent, and where the loop stands after them. *)
Fixpoint paginate (event_type : string) (limit : Z) (st : page_state)
    (script : list http_reply) : list variables * run_state :=
  match script with
  | [] => ([], Running st)
  | reply :: rest =>
      let request := {| var_event_type := event_type;
                        var_limit := limit;
                        var_offset := offset st |} in
      match page_iteration limit st reply with
      | Break all_events => ([request], Stopped all_events)
      | Next st' =>
          let (requests, final) := paginate event_type limit st' rest in
          (request :: requests, final)
      end
  end.

Definition initial_page_state : page_state :=
  {| all_events_of_type := []; offset := 0; page := 1 |}.

(** The function: the requests it sent, and the list it returned, which
    is [None] when the script ends while the loop is still asking. *)
Definition fetch_all_events_by_type (event_type : string) (limit : Z)
    (script : list http_reply) : list variables * option (list json) :=
  let (requests, final) := paginate event_type limit initial_page_state script in
  (requests, match final with Stopped all_events => Some all_events | Running _ => None end).

(** ** File system and path helpers *)

(** The part of the file system the script touches: the directories and
    the regular files with their text, and the paths on which creating or
    opening raises [OSError] (no permission, read-only medium, ...). *)
Record filesystem : Type := {
  directories : gset string;
  files : gmap string string;
  denied : gset string
}.

Module Os.

(** [os.path.exists(path)] *)
Definition path_exists (fs : filesystem) (path : string) : bool :=
  bool_decide (path ∈ directories fs) || bool_decide (is_Some (files fs !! path)).

(** [os.makedirs(path)] *)
Definition makedirs (fs : filesystem) (path : string) : outcome filesystem :=
  if bool_decide (path ∈ denied fs) then Raise OSError
  else Return {| directories := {[path]} ∪ directories fs;
                 files := files fs;
                 denied := denied fs |}.

(** [open(path, 'r')] and reading the whole text. *)
Definition read_text (fs : filesystem) (path : string) : outcome string :=
  if bool_decide (path ∈ denied fs) then Raise OSError
  else match files fs !! path with
       | Some text => Return text
       | None => Raise OSError
       end.

(** [open(path, 'w')] and writing the whole text: the file is created
    or replaced. *)
Definition write_text (fs : filesystem) (path text : string) : outcome filesystem :=
  if bool_decide (path ∈ denied fs) then Raise OSError
  else Return {| directories := directories fs;
                 files := <[path := text]> (files fs);
                 denied := denied fs |}.

(** [os.path.join(a, b)] on POSIX. *)
Definition path_join (a b : string) : string :=
  if String.prefix "/" b then b
  else if bool_decide (a = EmptyString) then b
  else match String.get (String.length a - 1) a with
       | Some "/"%char => a +:+ b
       | _ => a +:+ "/" +:+ b
       end.

(** [s.replace(old, new)] for a non-empty [old]: every occurrence, from
    the left, without overlap.  [skip] counts the characters of a
    matched occurrence still to pass over. *)
Fixpoint replace_go (old new : string) (skip : nat) (s : string) : string :=
  match s with
  | EmptyString => EmptyString
  | String c rest =>
      match skip with
      | S k => replace_go old new k rest
      | O =>
          if String.prefix old s
          then new +:+ replace_go old new (String.length old - 1) rest
          else String c (replace_go old new 0 rest)
      end
  end.

Definition replace (old new s : string) : string := replace_go old new 0 s.

End Os.

(** [KofiStakerChecker._ensure_cache_directory] *)
Definition _ensure_cache_directory (fs : filesystem) (cache_dir : string)
  : filesystem * bool :=
  if negb (Os.path_exists fs cache_dir) then
    match Os.makedirs fs cache_dir with
    | Return fs' => (fs', true)
    | Raise _ => (fs, false)
    end
  else (fs, true).

(** [KofiStakerChecker._get_cache_filename]; [current_date] is what
    [time.strftime("%Y%m%d")] gives at the call. *)
Definition _get_cache_filename (event_type cache_dir current_date : string) : string :=
  let safe_event_type :=
    Os.replace ">" "_" (Os.replace "<" "_" (Os.replace "::" "_" event_type)) in
  let filename := safe_event_type +:+ "_events_" +:+ current_date +:+ ".json" in
  Os.path_join cache_dir filename.

(** ** Decision Engine: the per-address part of [main] *)

(** One entry of [results_summary]. *)
Record AddressResult : Type := {
  address : string;
  meets_criteria : bool;
  cumulative_amount : Z;
  events_found : nat;
  error : option string
}.

(** Step 2a: the events whose [data] is a dict with [user] equal to the
    address.  [event.get] is outside any [try]: an event that is not a
    dict ends [main] with [AttributeError]. *)
Fixpoint user_specific_events (all_target_events : list json) (address_to_check : string)
  : outcome (list json) :=
  match all_target_events with
  | [] => Return []
  | event :: rest =>
      event_data_dict ← Py.get event "data";
      keep ← (if Py.is_dict event_data_dict then
                data_user_value ← Py.get event_data_dict "user";
                Return (Py.eq_str data_user_value address_to_check)
              else Return false);
      others ← user_specific_events rest address_to_check;
      Return (if keep : bool then event :: others else others)
  end.

(** The body of the loop over the addresses, for a non-empty global
    list.  [calculate_cumulative_amount] and the comparison always
    return, so the [except] clause of step 2b is never entered. *)
Definition check_address (all_target_events : list json) (threshold : Z)
    (address_to_check : string) : outcome AddressResult :=
  user_events ← user_specific_events all_target_events address_to_check;
  match user_events with
  | [] =>
      Return {| address := address_to_check;
                meets_criteria := false;
                cumulative_amount := 0;
                events_found := length user_events;
                error := None |}
  | _ =>
      let cumulative := fst (calculate_cumulative_amount user_events) in
      Return {| address := address_to_check;
                meets_criteria := bool_decide (cumulative > threshold);
                cumulative_amount := cumulative;
                events_found := length user_events;
                error := None |}
  end.

(** The entry written for every address when there is no global event. *)
Definition no_global_events (addr_to_check : string) : AddressResult :=
  {| address := addr_to_check;
     meets_criteria := false;
     cumulative_amount := 0;
     events_found := 0;
     error := Some "No global events of target type found" |}.

(** [results_summary] as built from the global list on: one entry per
    address, in the order of the addresses. *)
Definition results_summary (all_target_events : list json) (threshold : Z)
    (addresses_to_check : list string) : outcome (list AddressResult) :=
  match all_target_events with
  | [] => Return (no_global_events <$> addresses_to_check)
  | _ => mapM (check_address all_target_events threshold) addresses_to_check
  end.

(** ** Event Cache and [main] *)

(** The parsed command line, without the addresses and the delay. *)
Record arguments : Type := {
  event_type : string;
  threshold : Z;
  limit : Z;
  cache_dir : string;
  no_cache : bool
}.

(** What a run of [main] finds around it: the file system, the date,
    and the replies the endpoint gives to the requests of this run. *)
Record world : Type := {
  fs : filesystem;
  today : string;
  endpoint : list http_reply
}.

(** What a run leaves behind and works with: the file system after it,
    the requests it sent, and the global list of events it went on with
    ([None] when the script of replies ends while the Paginator is still
    asking). *)
Record step1 : Type := {
  fs_after : filesystem;
  requests_sent : list variables;
  all_target_events : option (list json)
}.

Section Codec.

(** [json.dump(v, f, indent=2)] and [json.load(f)] of the Python
    library, on the text of a file; [json_load] gives [None] for
    [JSONDecodeError]. *)
Variable json_dump : json -> string.
Variable json_load : string -> option json.

(** The [try] that reads the cache file: the list in it, or [None]
    when the file cannot be read, is not JSON, or is not a list. *)
Definition load_from_cache (fs : filesystem) (cache_filename : string)
  : option (list json) :=
  match Os.read_text fs cache_filename with
  | Raise _ => None
  | Return text =>
      match json_load text with
      | Some (JList events) => Some events
      | Some _ => None
      | None => None
      end
  end.

(** The [try] that writes the cache file; a failure only prints a
    warning. *)
Definition save_to_cache (fs : filesystem) (cache_filename : string)
    (events : list json) : filesystem :=
  match Os.write_text fs cache_filename (json_dump (JList events)) with
  | Return fs' => fs'
  | Raise _ => fs
  end.

(** Step 1 of [main]: the cache directory and file name, the attempt
    to load, the live fetch and the save.  The Paginator returns a list
    whenever it returns, so the last test for [None] never holds. *)
Definition obtain_events (args : arguments) (w : world) : step1 :=
  let (fs1, can_use_cache_dir) := _ensure_cache_directory (fs w) (cache_dir args) in
  let cache_filename :=
    if can_use_cache_dir
    then Some (_get_cache_filename (event_type args) (cache_dir args) (today w))
    else None in
  let cached :=
    match cache_filename with
    | Some name =>
        if negb (no_cache args) && negb (bool_decide (name = EmptyString))
           && Os.path_exists fs1 name
        then load_from_cache fs1 name
        else None
    | None => None
    end in
  match cached with
  | Some events =>
      {| fs_after := fs1; requests_sent := []; all_target_events := Some events |}
  | None =>
      let (requests, fetched) :=
        fetch_all_events_by_type (event_type args) (limit args) (endpoint w) in
      match fetched with
      | Some events =>
          let fs2 :=
            match cache_filename with
            | Some name =>
                if negb (bool_decide (name = EmptyString)) then save_to_cache fs1 name events
                else fs1
            | None => fs1
            end in
          {| fs_after := fs2; requests_sent := requests; all_target_events := Some events |}
      | None =>
          {| fs_after := fs1; requests_sent := requests; all_target_events := None |}
      end
  end.

(** [main] from the point where [addresses_to_check] is known and not
    empty: the file system it leaves, the requests it sent, and
    [results_summary], or the exception that ended it. *)
Definition main (args : arguments) (addresses_to_check : list string) (w : world)
  : filesystem * list variables * option (outcome (list AddressResult)) :=
  let s := obtain_events args w in
  (fs_after s, requests_sent s,
   (fun events => results_summary events (threshold args) addresses_to_check)
     <$> all_target_events s).

End Codec.

(** ** A reference codec for the cache file

    [json.dump(..., indent=2)] and [json.load] belong to the Python
    library, not to the script.  The properties of the cache take them
    as parameters; this module gives one pair of functions to
    instantiate them with: a writer that lays the text out as
    [indent=2] does, and a reader for that text.  Numbers with a
    fraction or an exponent are outside its reach: the writer puts a
    finite float down as its integer part followed by [.0], and the
    reader refuses every number with a fraction or an exponent, so that
    a finite float never reads back. *)
Module JsonText.

(** The double quote. *)
Definition dquote : ascii := ascii_of_nat 34.

Definition hex_digit (n : N) : ascii :=
  ascii_of_N (if (n <? 10)%N then 48 + n else 87 + n).

(** One character inside a string literal. *)
Definition escape_char (c : ascii) : string :=
  let n := N_of_ascii c in
  if bool_decide (c = dquote) then String "\" (String dquote EmptyString)
  else if bool_decide (c = "\"%char) then "\\"
  else if (n =? 10)%N then "\n"
  else if (n =? 13)%N then "\r"
  else if (n =? 9)%N then "\t"
  else if (n =? 8)%N then "\b"
  else if (n =? 12)%N then "\f"
  else if (n <? 32)%N || (126 <? n)%N then
    "\u00" +:+ String (hex_digit (n / 16)) (String (hex_digit (n mod 16)) EmptyString)
  else String c EmptyString.

Fixpoint escape (s : string) : string :=
  match s with
  | EmptyString => EmptyString
  | String c rest => escape_char c +:+ escape rest
  end.

Definition quote (s : string) : string :=
  String dquote (escape s +:+ String dquote EmptyString).

Definition write_float (f : spec_float) : string :=
  match f with
  | S754_nan => "NaN"
  | S754_infinity false => "Infinity"
  | S754_infinity true => "-Infinity"
  | S754_zero false => "0.0"
  | S754_zero true => "-0.0"
  | S754_finite s m e =>
      (if s then "-" else EmptyString) +:+ pretty (Z.shiftl (Z.pos m) e) +:+ ".0"
  end.

(** A line break followed by the indentation of a nesting level. *)
Fixpoint newline (level : nat) : string :=
  match level with
  | O => String (ascii_of_nat 10) EmptyString
  | S k => newline k +:+ "  "
  end.

Fixpoint write (level : nat) (v : json) : string :=
  match v with
  | JNull => "null"
  | JBool true => "true"
  | JBool false => "false"
  | JInt z => pretty z
  | JFloat f => write_float f
  | JStr s => quote s
  | JList [] => "[]"
  | JList (x :: xs) =>
      "[" +:+ newline (S level) +:+ write (S level) x
      +:+ (fix more (ys : list json) : string :=
             match ys with
             | [] => EmptyString
             | y :: ys' => "," +:+ newline (S level) +:+ write (S level) y +:+ more ys'
             end) xs
      +:+ newline level +:+ "]"
  | JDict [] => "{}"
  | JDict ((k, x) :: xs) =>
      "{" +:+ newline (S level) +:+ quote k +:+ ": " +:+ write (S level) x
      +:+ (fix more (ys : list (string * json)) : string :=
             match ys with
             | [] => EmptyString
             | (k', y) :: ys' =>
                 "," +:+ newline (S level) +:+ quote k' +:+ ": " +:+ write (S level) y
                 +:+ more ys'
             end) xs
      +:+ newline level +:+ "}"
  end.

Definition dump (v : json) : string := write 0 v.

(** *** Reading *)

Definition is_ws (c : ascii) : bool :=
  let n := N_of_ascii c in
  (n =? 32)%N || (n =? 10)%N || (n =? 13)%N || (n =? 9)%N.

Fixpoint skip_ws (cs : list ascii) : list ascii :=
  match cs with
  | c :: rest => if is_ws c then skip_ws rest else cs
  | [] => []
  end.

Definition hex_value (c : ascii) : option N :=
  let n := N_of_ascii c in
  if (48 <=? n)%N && (n <=? 57)%N then Some (n - 48)%N
  else if (97 <=? n)%N && (n <=? 102)%N then Some (n - 87)%N
  else if (65 <=? n)%N && (n <=? 70)%N then Some (n - 55)%N
  else None.

(** The characters of a string literal after its opening quote, and
    the text after its closing quote. *)
Fixpoint read_string (cs : list ascii) : option (string * list ascii) :=
  match cs with
  | [] => None
  | c :: rest =>
      if bool_decide (c = dquote) then Some (EmptyString, rest)
      else if bool_decide (c = "\"%char) then
        match rest with
        | "u"%char :: "0"%char :: "0"%char :: h :: l :: rest' =>
            hi ← hex_value h;
            lo ← hex_value l;
            '(s, rest'') ← read_string rest';
            Some (String (ascii_of_N (16 * hi + lo)) s, rest'')
        | e :: rest' =>
            c' ← (if bool_decide (e = dquote) then Some dquote
                  else if bool_decide (e = "\"%char) then Some "\"%char
                  else if bool_decide (e = "/"%char) then Some "/"%char
                  else if bool_decide (e = "n"%char) then Some (ascii_of_nat 10)
                  else if bool_decide (e = "r"%char) then Some (ascii_of_nat 13)
                  else if bool_decide (e = "t"%char) then Some (ascii_of_nat 9)
                  else if bool_decide (e = "b"%char) then Some (ascii_of_nat 8)
                  else if bool_decide (e = "f"%char) then Some (ascii_of_nat 12)
                  else None);
            '(s, rest'') ← read_string rest';
            Some (String c' s, rest'')
        | [] => None
        end
      else if (N_of_ascii c <? 32)%N then None
      else
        '(s, rest') ← read_string rest;
        Some (String c s, rest')
  end.

Definition digit_value (c : ascii) : option Z :=
  let n := N_of_ascii c in
  if (48 <=? n)%N && (n <=? 57)%N then Some (Z.of_N (n - 48)) else None.

(** The digits at the head of a text, as a number, with how many there
    are and what follows. *)
Fixpoint read_digits (cs : list ascii) (acc : Z) (count : nat) : Z * nat * list ascii :=
  match cs with
  | c :: rest =>
      match digit_value c with
      | Some d => read_digits rest (10 * acc + d) (S count)
      | None => (acc, count, cs)
      end
  | [] => (acc, count, cs)
  end.

(** An integer literal: digits, no leading zero before another digit,
    and no fraction or exponent after. *)
Definition read_int (cs : list ascii) : option (Z * list ascii) :=
  let '(n, count, rest) := read_digits cs 0 0 in
  let leading_zero :=
    match cs with
    | "0"%char :: _ => negb (count =? 1)%nat
    | _ => false
    end in
  let goes_on :=
    match rest with
    | c :: _ => bool_decide (c = "."%char) || bool_decide (c = "e"%char)
                || bool_decide (c = "E"%char)
    | [] => false
    end in
  if (count =? 0)%nat || leading_zero || goes_on then None else Some (n, rest).

(** [d] with [key] bound to [v]: in place when the key is there, at
    the end otherwise. *)
Fixpoint dict_set (key : string) (v : json) (d : list (string * json))
  : list (string * json) :=
  match d with
  | [] => [(key, v)]
  | (k, x) :: rest =>
      if bool_decide (k = key) then (k, v) :: rest else (k, x) :: dict_set key v rest
  end.

Definition strip_prefix (word : string) (cs : list ascii) : option (list ascii) :=
  let w := list_ascii_of_string word in
  if bool_decide (take (length w) cs = w) then Some (drop (length w) cs) else None.

Fixpoint read_value (fuel : nat) (cs : list ascii) : option (json * list ascii) :=
  match fuel with
  | O => None
  | S fuel' =>
      match skip_ws cs with
      | [] => None
      | c :: rest =>
          if bool_decide (c = dquote) then
            '(s, rest') ← read_string rest; Some (JStr s, rest')
          else if bool_decide (c = "["%char) then
            match skip_ws rest with
            | "]"%char :: rest' => Some (JList [], rest')
            | _ => read_items fuel' rest []
            end
          else if bool_decide (c = "{"%char) then
            match skip_ws rest with
            | "}"%char :: rest' => Some (JDict [], rest')
            | _ => read_members fuel' rest []
            end
          else if bool_decide (c = "-"%char) then
            match strip_prefix "Infinity" rest with
            | Some rest' => Some (JFloat (S754_infinity true), rest')
            | None => '(n, rest') ← read_int rest; Some (JInt (- n), rest')
            end
          else
            match strip_prefix "null" (c :: rest), strip_prefix "true" (c :: rest),
                  strip_prefix "false" (c :: rest), strip_prefix "NaN" (c :: rest),
                  strip_prefix "Infinity" (c :: rest) with
            | Some rest', _, _, _, _ => Some (JNull, rest')
            | _, Some rest', _, _, _ => Some (JBool true, rest')
            | _, _, Some rest', _, _ => Some (JBool false, rest')
            | _, _, _, Some rest', _ => Some (JFloat S754_nan, rest')
            | _, _, _, _, Some rest' => Some (JFloat (S754_infinity false), rest')
            | _, _, _, _, _ => '(n, rest') ← read_int (c :: rest); Some (JInt n, rest')
            end
      end
  end
with read_items (fuel : nat) (cs : list ascii) (acc : list json)
  : option (json * list ascii) :=
  match fuel with
  | O => None
  | S fuel' =>
      '(v, rest) ← read_value fuel' cs;
      match skip_ws rest with
      | ","%char :: rest' => read_items fuel' rest' (acc ++ [v])
      | "]"%char :: rest' => Some (JList (acc ++ [v]), rest')
      | _ => None
      end
  end
with read_members (fuel : nat) (cs : list ascii) (acc : list (string * json))
  : option (json * list ascii) :=
  match fuel with
  | O => None
  | S fuel' =>
      match skip_ws cs with
      | c :: rest =>
          if negb (bool_decide (c = dquote)) then None else
          '(k, rest1) ← read_string rest;
          match skip_ws rest1 with
          | ":"%char :: rest2 =>
              '(v, rest3) ← read_value fuel' rest2;
              match skip_ws rest3 with
              | ","%char :: rest4 => read_members fuel' rest4 (dict_set k v acc)
              | "}"%char :: rest4 => Some (JDict (dict_set k v acc), rest4)
              | _ => None
              end
          | _ => None
          end
      | _ => None
      end
  end.

Definition load (text : string) : option json :=
  let cs := list_ascii_of_string text in
  '(v, rest) ← read_value (S (length cs)) cs;
  match skip_ws rest with
  | [] => Some v
  | _ => None
  end.

End JsonText.

(** ** The vocabulary of the specification *)

Module Spec.

(** The [data] payload of an event, when it is a mapping. *)
Definition payload (event : json) : option (list (string * json)) :=
  match event with
  | JDict d =>
      match Py.dict_get "data" d with
      | Some (JDict data) => Some data
      | _ => None
      end
  | _ => None
  end.

(** The amount of an event: present, and parsed as an integer. *)
Definition amount (event : json) : option Z :=
  data ← payload event;
  v ← Py.dict_get "amount" data;
  match Py.int v with
  | Return z => Some z
  | Raise _ => None
  end.

(** An event is attributable to an address when its payload is a
    mapping whose [user] field is that very string. *)
Definition attributable (addr : string) (event : json) : bool :=
  match payload event with
  | Some data =>
      match Py.dict_get "user" data with
      | Some (JStr user) => bool_decide (user = addr)
      | _ => false
      end
  | None => false
  end.

Definition sum (amounts : list Z) : Z := foldr Z.add 0 amounts.

(** The successfully parsed amounts of a list of events, in order. *)
Definition parsed (events : list json) : list Z := omap amount events.

(** The events without a parsed amount. *)
Definition malformed (events : list json) : list json :=
  filter (fun e => amount e = None) events.

(** The aggregated cumulative amount of an address. *)
Definition attributable_sum (addr : string) (events : list json) : Z :=
  sum (parsed (filter (fun e => attributable addr e = true) events)).

(** Every element of the event set is a record. *)
Definition records (events : list json) : Prop :=
  Forall (fun e => Py.is_dict e = true) events.

(** The entry [main] writes for an address, in the vocabulary of the
    specification. *)
Definition verdict (events : list json) (threshold : Z) (addr : string) : AddressResult :=
  let mine := filter (fun e => attributable addr e = true) events in
  {| address := addr;
     meets_criteria :=
       match mine with
       | [] => false
       | _ => bool_decide (attributable_sum addr events > threshold)
       end;
     cumulative_amount := attributable_sum addr events;
     events_found := length mine;
     error := None |}.

(** A page request aborts the pagination when it raises a transport
    or decoding exception, or when its response carries the key
    [errors]. *)
Definition aborts (reply : http_reply) : bool :=
  match execute_query reply with
  | Raise _ => true
  | Return (JDict d) => Py.dict_has "errors" d
  | Return _ => false
  end.

(** The request the Paginator sends from a state of its loop. *)
Definition request_at (event_type : string) (limit : Z) (st : page_state) : variables :=
  {| var_event_type := event_type; var_limit := limit; var_offset := offset st |}.

End Spec.

(** ** Sample data *)

Module Sample.

(** A mint event of a user. *)
Definition mint (user : string) (amount : json) : json :=
  JDict [("data", JDict [("user", JStr user); ("amount", amount)])].

(** A response with a page of events. *)
Definition page_of (events : list json) : http_reply :=
  Response 200 (Some (JDict [("data", JDict [("events", JList events)])])).

(** A response that reports GraphQL errors. *)
Definition graphql_error : http_reply :=
  Response 200 (Some (JDict [("errors", JList [JDict [("message", JStr "timeout")]])])).

(** Five events, three of them of the address [0xA], with the
    amounts 10, 20 and 30. *)
Definition five_events : list json :=
  [mint "0xA" (JStr "10"); mint "0xB" (JStr "7"); mint "0xA" (JStr "20");
   mint "0xC" (JStr "900"); mint "0xA" (JStr "30")].

Definition empty_fs : filesystem :=
  {| directories := ∅; files := ∅; denied := ∅ |}.

Definition args : arguments :=
  {| event_type := "0x2cc::minting_manager::MintEvent";
     threshold := 100000000;
     limit := 2;
     cache_dir := "data/cache";
     no_cache := false |}.

(** A first run on an empty file system, against an endpoint that
    answers the first page and then reports an error. *)
Definition first_world : world :=
  {| fs := empty_fs;
     today := "20250314";
     endpoint := [page_of [mint "0xA" (JStr "10"); mint "0xB" (JStr "7")];
                  graphql_error] |}.

End Sample.

(** ** Well-formed pages *)

Module Reply.

(** The events of a reply that is a page: the response is an object
    without the key [errors], its [data] is an object, and the [events]
    of that object is a list. *)
Definition events (reply : http_reply) : option (list json) :=
  match execute_query reply with
  | Return (JDict d) =>
      if Py.dict_has "errors" d then None
      else match Py.dict_get "data" d with
           | Some (JDict data) =>
               match Py.dict_get "events" data with
               | Some (JList page) => Some page
               | _ => None
               end
           | _ => None
           end
  | _ => None
  end.


(** A page after which the Paginator asks for the next one: it is not
    empty and does not have fewer events than the limit. *)
Definition full (limit : Z) (reply : http_reply) : bool :=
  match events reply with
  | Some (e :: page) => negb (Z.of_nat (length (e :: page)) <? limit)
  | _ => false
  end.



(** The events of the pages among some replies, in order. *)
Definition all_events (replies : list http_reply) : list json :=
  mjoin (omap events replies).

(** The requests for the first [n] pages. *)
Definition requests (event_type : string) (limit : Z) (n : nat) : list variables :=
  (fun i : nat => {| var_event_type := event_type;
                     var_limit := limit;
                     var_offset := Z.of_nat i * limit |}) <$> seq 0 n.

End Reply.

(** The events accumulated where the loop stands. *)
Definition final_events (final : run_state) : list json :=
  match final with
  | Running st => all_events_of_type st
  | Stopped all_events => all_events
  end.

(** ** The start of [main]: the addresses to check *)

(** The command line as [parse_arguments] hands it over: the value of
    [--address], the value of [--addresses-file], and the rest. *)
Record command_line : Type := {
  cli_address : option string;
  cli_addresses_file : option string;
  cli_options : arguments
}.

(** How a run of [main] ends: with the summary of step 3, at one of the
    [return]s after an error message, with the [NameError] of
    [parser.print_help()] ([parser] is a local of [parse_arguments]),
    with another exception that nothing catches, or not at all within
    the script of replies. *)
Inductive main_end : Type :=
| Summarised (results : list AddressResult)
| Returned (message : string)
| NameError
| Propagated (e : exn)
| Unfinished.

(** The truth value of an optional argument: given and not empty. *)
Definition given (arg : option string) : bool :=
  match arg with
  | Some s => negb (bool_decide (s = EmptyString))
  | None => false
  end.

(** The strings of a list, when all its elements are strings. *)
Fixpoint strings_of (l : list json) : option (list string) :=
  match l with
  | [] => Some []
  | JStr s :: rest => cons s <$> strings_of rest
  | _ => None
  end.

Section Program.

Variable json_dump : json -> string.
Variable json_load : string -> option json.

(** The [if]/[elif] that fills [addresses_to_check].  Opening the file
    is inside a [try] that catches [FileNotFoundError] and
    [JSONDecodeError] only: a file that is there but cannot be opened,
    or a directory, raises an [OSError] that goes through. *)
Definition load_addresses (cl : command_line) (fs : filesystem)
  : main_end + list string :=
  if given (cli_addresses_file cl) then
    let path := default EmptyString (cli_addresses_file cl) in
    if bool_decide (path ∈ denied fs) then inl (Propagated OSError)
    else match files fs !! path with
         | None =>
             if bool_decide (path ∈ directories fs) then inl (Propagated OSError)
             else inl (Returned ("Error: Addresses file not found: " +:+ path))
         | Some text =>
             match json_load text with
             | None => inl (Returned ("Error: Could not decode JSON from " +:+ path))
             | Some (JList l) =>
                 match strings_of l with
                 | Some addresses => inr addresses
                 | None =>
                     inl (Returned ("Error: Content of " +:+ path
                                    +:+ " is not a valid JSON list of strings."))
                 end
             | Some _ =>
                 inl (Returned ("Error: Content of " +:+ path
                                +:+ " is not a valid JSON list of strings."))
             end
         end
  else if given (cli_address cl) then inr [default EmptyString (cli_address cl)]
  else inr [].

(** [main] as a whole. *)
Definition run_main (cl : command_line) (w : world)
  : filesystem * list variables * main_end :=
  match load_addresses cl (fs w) with
  | inl ended => (fs w, [], ended)
  | inr [] => (fs w, [], NameError)
  | inr addresses_to_check =>
      let '(fs', requests, results) :=
        main json_dump json_load (cli_options cl) addresses_to_check w in
      (fs', requests,
       match results with
       | None => Unfinished
       | Some (Return summary) => Summarised summary
       | Some (Raise e) => Propagated e
       end)
  end.

End Program.

(** ** More sample data *)

Module Scenario.

Definition e1 : json := Sample.mint "0xA" (JStr "10").
Definition e2 : json := Sample.mint "0xB" (JStr "7").
Definition e3 : json := Sample.mint "0xA" (JStr "20").

(** The file system the first run of [Sample.first_world] leaves: the
    cache directory, and the cache file with the two events fetched. *)
Definition cached_fs : filesystem :=
  fs_after (obtain_events JsonText.dump JsonText.load Sample.args Sample.first_world).

(** A later run on the same date, with an endpoint that answers
    nothing. *)
Definition second_world : world :=
  {| fs := cached_fs; today := "20250314"; endpoint := [] |}.

(** A file system on which the cache directory cannot be created. *)
Definition locked_world : world :=
  {| fs := {| directories := ∅; files := ∅; denied := {["data/cache"]} |};
     today := "20250314";
     endpoint := [Sample.page_of [e1]] |}.

(** The arguments of [Sample.args] with [--no-cache]. *)
Definition fresh_args : arguments :=
  {| event_type := event_type Sample.args;
     threshold := threshold Sample.args;
     limit := limit Sample.args;
     cache_dir := cache_dir Sample.args;
     no_cache := true |}.

(** The arguments of [Sample.args] for another event type, which has
    the same cache file name. *)
Definition alias_args : arguments :=
  {| event_type := "0x2cc_minting_manager_MintEvent";
     threshold := threshold Sample.args;
     limit := limit Sample.args;
     cache_dir := cache_dir Sample.args;
     no_cache := false |}.

(** A file system with an addresses file of two addresses. *)
Definition addresses_fs : filesystem :=
  {| directories := ∅;
     files := {["addresses.json" := JsonText.dump (JList [JStr "0xA"; JStr "0xB"])]};
     denied := ∅ |}.

Definition file_command_line : command_line :=
  {| cli_address := None;
     cli_addresses_file := Some "addresses.json";
     cli_options := Sample.args |}.

(** The command line with [--address] followed by the empty string. *)
Definition blank_command_line : command_line :=
  {| cli_address := Some EmptyString;
     cli_addresses_file := None;
     cli_options := Sample.args |}.

End Scenario.

(** * Properties *)

(** ** Aggregator *)

Lemma loop_iteration_amount (c : counters) (event : json) :
  loop_iteration c event =
  match Spec.amount event with
  | Some z =>
      {| total_amount := total_amount c + z;
         processed_count := S (processed_count c);
         malformed_data_count := malformed_data_count c |}
  | None =>
      {| total_amount := total_amount c;
         processed_count := processed_count c;
         malformed_data_count := S (malformed_data_count c) |}
  end.
Proof.
  unfold loop_iteration, try_body, Spec.amount, Spec.payload.
  destruct event as [| | | | |l|d]; simpl; try reflexivity.
  destruct (Py.dict_get "data" d) as [[| | | | |l'|data]|]; simpl; try reflexivity.
  destruct (Py.dict_get "amount" data) as [v|]; simpl; [|reflexivity].
  destruct v as [| | |f| |l''|d'']; simpl; try reflexivity.
  - destruct f; reflexivity.
  - destruct (Py.int_of_str s); reflexivity.
Qed.

Lemma foldl_loop_iteration (events : list json) (c : counters) :
  foldl loop_iteration c events =
  {| total_amount := total_amount c + Spec.sum (Spec.parsed events);
     processed_count := processed_count c + length (Spec.parsed events);
     malformed_data_count := malformed_data_count c + length (Spec.malformed events) |}.
Proof.
  revert c. induction events as [|event events IH]; intros c; simpl.
  - destruct c; simpl. f_equal; lia.
  - rewrite IH, loop_iteration_amount.
    unfold Spec.parsed, Spec.malformed. simpl. rewrite filter_cons.
    destruct (Spec.amount event) as [z|] eqn:E; simpl.
    + f_equal; lia.
    + f_equal; lia.
Qed.

Lemma final_counters_spec (events : list json) :
  final_counters events =
  {| total_amount := Spec.sum (Spec.parsed events);
     processed_count := length (Spec.parsed events);
     malformed_data_count := length (Spec.malformed events) |}.
Proof.
  destruct events as [|e events]; [reflexivity|].
  unfold final_counters. rewrite foldl_loop_iteration. reflexivity.
Qed.

Lemma parsed_malformed_length (events : list json) :
  (length (Spec.parsed events) + length (Spec.malformed events) = length events)%nat.
Proof.
  unfold Spec.parsed, Spec.malformed.
  induction events as [|e events IH]; simpl; [reflexivity|].
  rewrite filter_cons. destruct (Spec.amount e) eqn:E; simpl.
  - f_equal. exact IH.
  - rewrite Nat.add_succ_r. f_equal. exact IH.
Qed.

Lemma returned_sum (events : list json) :
  fst (calculate_cumulative_amount events) = Spec.sum (Spec.parsed events).
Proof.
  unfold calculate_cumulative_amount. simpl.
  rewrite final_counters_spec. reflexivity.
Qed.

Lemma loop_iteration_counts_once (c : counters) (event : json) :
  (processed_count (loop_iteration c event) = S (processed_count c)
   ∧ malformed_data_count (loop_iteration c event) = malformed_data_count c)
  ∨ (processed_count (loop_iteration c event) = processed_count c
     ∧ malformed_data_count (loop_iteration c event) = S (malformed_data_count c)).
Proof.
  rewrite loop_iteration_amount.
  destruct (Spec.amount event); simpl; [left|right]; split; reflexivity.
Qed.

(** C10: [calculate_cumulative_amount] counts every input event in
    exactly one of its two counters: an iteration of the loop adds one
    to [processed_count] or one to [malformed_data_count] and leaves the
    other as it is, and when the function reaches its [return] the
    number of processed events plus the number of malformed events is
    the length of the input list. *)
Theorem processed_plus_malformed (events : list json) :
  (∀ (c : counters) (event : json),
     (processed_count (loop_iteration c event) = S (processed_count c)
      ∧ malformed_data_count (loop_iteration c event) = malformed_data_count c)
     ∨ (processed_count (loop_iteration c event) = processed_count c
        ∧ malformed_data_count (loop_iteration c event) = S (malformed_data_count c)))
  ∧ (processed_count (final_counters events)
     + malformed_data_count (final_counters events) = length events)%nat.
Proof.
  split; [apply loop_iteration_counts_once|].
  rewrite final_counters_spec. simpl. apply parsed_malformed_length.
Qed.

(** C7: the Aggregator reads [data.amount] of each event and parses it
    as an integer; an event whose amount is absent or does not parse is
    skipped and counted as malformed, the loop goes on, and the sum
    returned is the sum of exactly the parsed amounts. *)
Theorem sum_of_parsed_amounts (events : list json) :
  fst (calculate_cumulative_amount events) = Spec.sum (Spec.parsed events)
  ∧ total_amount (final_counters events) = Spec.sum (Spec.parsed events)
  ∧ processed_count (final_counters events) = length (Spec.parsed events)
  ∧ malformed_data_count (final_counters events) = length (Spec.malformed events).
Proof.
  rewrite returned_sum, final_counters_spec. simpl. repeat split.
Qed.

Example three_of_ten_malformed :
  let events :=
    [Sample.mint "0xA" (JStr "1"); Sample.mint "0xA" (JStr "abc"); Sample.mint "0xA" (JStr "2");
     Sample.mint "0xA" (JStr "3"); Sample.mint "0xA" (JStr "1.5"); Sample.mint "0xA" (JStr "4");
     Sample.mint "0xA" (JStr "5"); Sample.mint "0xA" (JStr EmptyString); Sample.mint "0xA" (JStr "6");
     Sample.mint "0xA" (JStr "7")] in
  fst (calculate_cumulative_amount events) = 28
  ∧ processed_count (final_counters events) = 7%nat
  ∧ malformed_data_count (final_counters events) = 3%nat.
Proof. repeat split. Qed.

(** C2, as stated, fails: the value handed to the caller is the sum
    alone.  Two lists of two events of one address, one with an amount
    that does not parse, give the same returned value, and the same
    entry in [results_summary], while their malformed counts differ: no
    caller can read the counts off what it receives. *)
Lemma returned_value_hides_counts :
  let summed := [Sample.mint "0xA" (JStr "5"); Sample.mint "0xA" (JStr "0")] in
  let skipped := [Sample.mint "0xA" (JStr "5"); Sample.mint "0xA" (JStr "x")] in
  fst (calculate_cumulative_amount summed) = fst (calculate_cumulative_amount skipped)
  ∧ results_summary summed 1 ["0xA"] = results_summary skipped 1 ["0xA"]
  ∧ malformed_data_count (final_counters summed) = 0%nat
  ∧ malformed_data_count (final_counters skipped) = 1%nat
  ∧ ¬ ∃ report : Z -> Z * nat * nat,
        ∀ events : list json,
          report (fst (calculate_cumulative_amount events))
          = (Spec.sum (Spec.parsed events), length events,
             length (Spec.malformed events)).
Proof.
  intros summed skipped. repeat split.
  intros [report H].
  pose proof (H summed) as H1. pose proof (H skipped) as H2.
  vm_compute in H1, H2. rewrite H1 in H2. discriminate H2.
Qed.

(** C2, amended: [calculate_cumulative_amount] returns the sum alone to
    its caller; the number of events it received, the number it skipped
    as malformed (when there is one) and the number it summed are
    printed, except for an empty list, where only a notice is printed. *)
Theorem returns_sum_prints_counts (events : list json) :
  calculate_cumulative_amount events =
  (Spec.sum (Spec.parsed events),
   match events with
   | [] => ["No events provided for amount calculation."]
   | _ =>
       ["Calculating cumulative amount from " +:+ pretty (length events) +:+ " events..."]
       ++ (if bool_decide (0 < length (Spec.malformed events))%nat
           then ["Warning: Skipped " +:+ pretty (length (Spec.malformed events))
                 +:+ " events due to missing or malformed 'amount' in data field."]
           else [])
       ++ ["Successfully processed " +:+ pretty (length (Spec.parsed events))
           +:+ " events for amount calculation."]
   end).
Proof.
  unfold calculate_cumulative_amount, printed.
  rewrite final_counters_spec. simpl.
  destruct events; reflexivity.
Qed.

(** ** Decision Engine *)

Lemma user_specific_events_records (events : list json) (addr : string) :
  Spec.records events ->
  user_specific_events events addr
  = Return (filter (fun e => Spec.attributable addr e = true) events).
Proof.
  induction 1 as [|event events Hd _ IH]; [reflexivity|].
  simpl. rewrite filter_cons.
  destruct event as [| | | | | |d]; try discriminate Hd. clear Hd.
  unfold Spec.attributable, Spec.payload. simpl.
  destruct (Py.dict_get "data" d) as [[| | | | | |data]|]; simpl;
    rewrite IH; simpl; try reflexivity.
  destruct (Py.dict_get "user" data) as [[| | | |user| |]|]; simpl; try reflexivity.
  destruct (bool_decide (user = addr)); reflexivity.
Qed.

Lemma check_address_records (events : list json) (threshold : Z) (addr : string) :
  Spec.records events ->
  check_address events threshold addr = Return (Spec.verdict events threshold addr).
Proof.
  intros Hrec. unfold check_address, Spec.verdict, Spec.attributable_sum.
  rewrite (user_specific_events_records _ _ Hrec). simpl.
  destruct (filter _ events) as [|e mine] eqn:E; [reflexivity|].
  rewrite final_counters_spec. reflexivity.
Qed.

Lemma mapM_Return {A B : Type} (f : A -> outcome B) (g : A -> B) (l : list A) :
  (∀ a, f a = Return (g a)) -> mapM f l = Return (g <$> l).
Proof.
  intros Hf. induction l as [|a l IH]; [reflexivity|].
  simpl. rewrite Hf. simpl. rewrite IH. reflexivity.
Qed.

Lemma results_summary_records (events : list json) (threshold : Z) (addrs : list string) :
  Spec.records events ->
  results_summary events threshold addrs =
  Return ((match events with
           | [] => no_global_events
           | _ => Spec.verdict events threshold
           end) <$> addrs).
Proof.
  intros Hrec. unfold results_summary.
  destruct events as [|e events]; [reflexivity|].
  apply mapM_Return. intros a. apply check_address_records, Hrec.
Qed.


(** C5, as stated, fails: an event whose amount is the string [-5]
    parses, and the amount reported for its address is negative. *)
Lemma negative_amount_reported :
  ∃ r,
    results_summary [Sample.mint "0xA" (JStr "-5")] 100000000 ["0xA"] = Return [r]
    ∧ events_found r = 1%nat
    ∧ cumulative_amount r = -5
    ∧ ¬ 0 <= cumulative_amount r.
Proof.
  eexists. split; [reflexivity|]. simpl. repeat split. lia.
Qed.

Lemma attributable_sum_nonneg (addr : string) (events : list json) :
  Forall (fun e => ∀ z, Spec.amount e = Some z -> 0 <= z) events ->
  0 <= Spec.attributable_sum addr events.
Proof.
  unfold Spec.attributable_sum, Spec.parsed.
  induction 1 as [|e events He _ IH]; simpl; [lia|].
  rewrite filter_cons. case_decide; [|exact IH].
  simpl. destruct (Spec.amount e) as [z|] eqn:E; [|exact IH].
  specialize (He z eq_refl). simpl.
  apply Z.add_nonneg_nonneg; [exact He|exact IH].
Qed.

(** C5, amended: for every event set of records in which no parsed
    amount is negative, and every address, the cumulative amount in the
    entry of the address is a non-negative integer. *)
Theorem amount_nonneg (events : list json) (threshold : Z) (addrs : list string) :
  Spec.records events ->
  Forall (fun e => ∀ z, Spec.amount e = Some z -> 0 <= z) events ->
  ∃ results,
    results_summary events threshold addrs = Return results
    ∧ Forall (fun r => 0 <= cumulative_amount r) results.
Proof.
  intros Hrec Hpos. eexists. split; [apply results_summary_records, Hrec|].
  apply Forall_fmap, Forall_forall. intros addr _.
  destruct events as [|e events]; simpl; [lia|].
  apply attributable_sum_nonneg, Hpos.
Qed.

(** C6, as stated, fails on the text of the message: the entry written
    for an empty event set does not carry the message in the spelling
    of the claim. *)
Lemma no_events_message_spelling :
  results_summary [] 100000000 ["0xA"]
  ≠ Return [ {| address := "0xA";
                meets_criteria := false;
                cumulative_amount := 0;
                events_found := 0;
                error := Some "no global events of target type found" |} ].
Proof. simpl. discriminate. Qed.

(** C6, amended: when the global event set is empty, the entry of every
    address has [meets_criteria] false, amount 0, no event found, and
    the error message [No global events of target type found]. *)
Theorem no_global_events_verdict (threshold : Z) (addrs : list string) :
  results_summary [] threshold addrs =
  Return ((fun addr => {| address := addr;
                          meets_criteria := false;
                          cumulative_amount := 0;
                          events_found := 0;
                          error := Some "No global events of target type found" |})
          <$> addrs).
Proof. reflexivity. Qed.

(** ** Paginator *)

Lemma page_iteration_aborts (limit : Z) (st : page_state) (reply : http_reply) :
  Spec.aborts reply = true ->
  page_iteration limit st reply = Break (all_events_of_type st).
Proof.
  unfold Spec.aborts, page_iteration, page_try.
  destruct (execute_query reply) as [result|e]; simpl; [|reflexivity].
  destruct result as [| | | | | |d]; try discriminate. intros Herr.
  simpl. rewrite Herr. simpl. unfold Py.dict_has in Herr.
  destruct (Py.dict_get "errors" d); [reflexivity|discriminate].
Qed.

(** The loop goes on only after advancing the offset by the limit. *)
Lemma page_iteration_next (limit : Z) (st st' : page_state) (reply : http_reply) :
  page_iteration limit st reply = Next st' ->
  offset st' = offset st + limit.
Proof.
  unfold page_iteration, page_try.
  destruct (execute_query reply) as [result|e]; simpl; [|discriminate].
  destruct (Py.contains result "errors") as [[]|]; simpl; try discriminate.
  { destruct (Py.subscript result "errors"); discriminate. }
  destruct (Py.get_default result "data" (JDict [])) as [events_data|];
    simpl; [|discriminate].
  destruct (Py.truthy events_data); simpl; [|discriminate].
  destruct (Py.get_default events_data "events" (JList [])) as [events_page|];
    simpl; [|discriminate].
  destruct (Py.truthy events_page); simpl; [|discriminate].
  destruct (Py.iterate events_page) as [items|]; simpl; [|discriminate].
  destruct (Py.len events_page) as [n|]; simpl; [|discriminate].
  destruct (n <? limit); [discriminate|].
  intros [= <-]. reflexivity.
Qed.

(** Running a script in two parts. *)
Lemma paginate_app (event_type : string) (limit : Z) (before rest : list http_reply)
    (st : page_state) :
  paginate event_type limit st (before ++ rest) =
  match paginate event_type limit st before with
  | (requests, Running st') =>
      let (requests', final) := paginate event_type limit st' rest in
      (requests ++ requests', final)
  | (requests, Stopped all_events) => (requests, Stopped all_events)
  end.
Proof.
  revert st. induction before as [|reply before IH]; intros st; simpl.
  - destruct (paginate event_type limit st rest). reflexivity.
  - destruct (page_iteration limit st reply) as [all_events|st1]; [reflexivity|].
    rewrite IH.
    destruct (paginate event_type limit st1 before) as [requests [st2|all_events]];
      [|reflexivity].
    destruct (paginate event_type limit st2 rest). reflexivity.
Qed.

(** C3: when the request of any page raises a transport or decoding
    exception, or its response carries the key [errors], the pagination
    stops and [fetch_all_events_by_type] returns, as an ordinary result,
    the accumulator as it stood before that page. *)
Theorem abort_returns_accumulator (event_type : string) (limit : Z)
    (before after : list http_reply) (reply : http_reply)
    (requests : list variables) (st : page_state) :
  paginate event_type limit initial_page_state before = (requests, Running st) ->
  Spec.aborts reply = true ->
  fetch_all_events_by_type event_type limit (before ++ reply :: after)
  = (requests ++ [Spec.request_at event_type limit st], Some (all_events_of_type st)).
Proof.
  intros Hbefore Habort. unfold fetch_all_events_by_type.
  rewrite paginate_app, Hbefore. simpl.
  rewrite (page_iteration_aborts _ _ _ Habort). reflexivity.
Qed.

Lemma paginate_offsets (event_type : string) (limit : Z) (script : list http_reply)
    (st : page_state) :
  var_offset <$> (paginate event_type limit st script).1
  = (fun i : nat => offset st + Z.of_nat i * limit)
    <$> seq 0 (length (paginate event_type limit st script).1).
Proof.
  revert st. induction script as [|reply script IH]; intros st; [reflexivity|].
  simpl. destruct (page_iteration limit st reply) as [all_events|st'] eqn:E; simpl.
  - f_equal. lia.
  - specialize (IH st'). apply page_iteration_next in E.
    destruct (paginate event_type limit st' script) as [requests final]. simpl in *.
    f_equal; [lia|]. etrans; [exact IH|].
    change (list_fmap nat Z ?f ?l) with (f <$> l).
    rewrite <- fmap_S_seq, <- list_fmap_compose.
    apply list_fmap_ext. intros _ i _. simpl. lia.
Qed.

Lemma arithmetic_offsets_sorted (limit : Z) (n start : nat) :
  0 < limit ->
  StronglySorted Z.lt ((fun i : nat => Z.of_nat i * limit) <$> seq start n).
Proof.
  intros Hlimit. revert start. induction n as [|n IH]; intros start; simpl.
  - constructor.
  - constructor; [apply IH|].
    apply Forall_fmap, Forall_forall. intros i Hi.
    apply elem_of_seq in Hi. simpl. nia.
Qed.

(** C4: for every positive page size and every script of replies, the
    offsets the Paginator requests are 0, limit, 2 * limit, ... in this
    order: an arithmetic sequence from 0 with the page size as step,
    strictly increasing, so that no offset is requested twice. *)
Theorem offsets_arithmetic (event_type : string) (limit : Z) (script : list http_reply) :
  0 < limit ->
  let offsets := var_offset <$> (fetch_all_events_by_type event_type limit script).1 in
  offsets = (fun i : nat => Z.of_nat i * limit) <$> seq 0 (length offsets)
  ∧ StronglySorted Z.lt offsets
  ∧ NoDup offsets.
Proof.
  intros Hlimit offsets.
  assert (offsets = (fun i : nat => Z.of_nat i * limit) <$> seq 0 (length offsets)) as Heq.
  { subst offsets. unfold fetch_all_events_by_type.
    pose proof (paginate_offsets event_type limit script initial_page_state) as H.
    destruct (paginate event_type limit initial_page_state script) as [requests final].
    simpl in *. rewrite length_fmap. exact H. }
  split; [exact Heq|]. rewrite Heq. split.
  - apply arithmetic_offsets_sorted, Hlimit.
  - apply NoDup_fmap_2; [|apply NoDup_seq].
    intros i j Hij. nia.
Qed.

(** ** Event Cache *)

Lemma append_nonempty (a b : string) : b ≠ EmptyString -> a +:+ b ≠ EmptyString.
Proof. destruct a; simpl; [tauto|discriminate]. Qed.

Lemma path_join_nonempty (a b : string) :
  b ≠ EmptyString -> Os.path_join a b ≠ EmptyString.
Proof.
  intros Hb. unfold Os.path_join.
  destruct (String.prefix "/" b); [exact Hb|].
  case_bool_decide; [exact Hb|].
  destruct (String.get _ a) as [c|].
  - destruct (ascii_dec c "/") as [->|Hc].
    + apply append_nonempty, Hb.
    + assert (a +:+ "/" +:+ b ≠ EmptyString) as Hne
        by (apply append_nonempty; discriminate).
      destruct c as [[] [] [] [] [] [] [] []]; try exact Hne. congruence.
  - apply append_nonempty. discriminate.
Qed.

Lemma cache_filename_nonempty (event_type cache_dir current_date : string) :
  _get_cache_filename event_type cache_dir current_date ≠ EmptyString.
Proof.
  unfold _get_cache_filename. apply path_join_nonempty.
  apply append_nonempty. discriminate.
Qed.

Lemma ensure_cache_directory_denied (fs : filesystem) (cache_dir : string) :
  denied (_ensure_cache_directory fs cache_dir).1 = denied fs.
Proof.
  unfold _ensure_cache_directory, Os.makedirs.
  destruct (Os.path_exists fs cache_dir); simpl; [reflexivity|].
  case_bool_decide; reflexivity.
Qed.

Lemma ensure_cache_directory_exists (fs : filesystem) (cache_dir : string) :
  (_ensure_cache_directory fs cache_dir).2 = true ->
  Os.path_exists (_ensure_cache_directory fs cache_dir).1 cache_dir = true.
Proof.
  unfold _ensure_cache_directory, Os.makedirs.
  destruct (Os.path_exists fs cache_dir) eqn:E; simpl; [intros _; exact E|].
  case_bool_decide; simpl; [discriminate|]. intros _.
  unfold Os.path_exists. simpl.
  rewrite bool_decide_eq_true_2 by set_solver. reflexivity.
Qed.

Lemma ensure_cache_directory_again (fs : filesystem) (cache_dir : string) :
  Os.path_exists fs cache_dir = true ->
  _ensure_cache_directory fs cache_dir = (fs, true).
Proof. intros H. unfold _ensure_cache_directory. rewrite H. reflexivity. Qed.

Section CacheProperties.

Variable json_dump : json -> string.
Variable json_load : string -> option json.

Lemma save_to_cache_files (fs : filesystem) (name : string) (events : list json) :
  name ∉ denied fs ->
  save_to_cache json_dump fs name events =
  {| directories := directories fs;
     files := <[name := json_dump (JList events)]> (files fs);
     denied := denied fs |}.
Proof.
  intros Hname. unfold save_to_cache, Os.write_text.
  rewrite bool_decide_eq_false_2 by exact Hname. reflexivity.
Qed.

Lemma path_exists_save (fs : filesystem) (name path : string) (events : list json) :
  Os.path_exists fs path = true ->
  Os.path_exists (save_to_cache json_dump fs name events) path = true.
Proof.
  unfold save_to_cache, Os.write_text.
  case_bool_decide; simpl; [tauto|].
  unfold Os.path_exists. simpl. intros Hex.
  apply orb_true_iff in Hex as [Hex|Hex]; apply orb_true_iff; [left; exact Hex|right].
  apply bool_decide_eq_true. apply bool_decide_eq_true in Hex.
  destruct (decide (name = path)) as [->|Hne].
  - rewrite lookup_insert_eq. eauto.
  - rewrite lookup_insert_ne by exact Hne. exact Hex.
Qed.

Lemma load_after_save (fs : filesystem) (name : string) (events : list json) :
  name ∉ denied fs ->
  json_load (json_dump (JList events)) = Some (JList events) ->
  load_from_cache json_load (save_to_cache json_dump fs name events) name = Some events.
Proof.
  intros Hname Hcodec. rewrite save_to_cache_files by exact Hname.
  unfold load_from_cache, Os.read_text. simpl.
  rewrite bool_decide_eq_false_2 by exact Hname.
  rewrite lookup_insert_eq, Hcodec. reflexivity.
Qed.


(** C9: after a live fetch, [main] writes the list the Paginator
    returned, whatever it is, to the cache file of the event type and
    the date; a later run on the same date with caching enabled loads
    that list, sends no request, and goes on with it as the event
    set.  The cache directory is usable and the file writable in the
    first run, and [json.dump] and [json.load] are lossless on the
    list. *)
Theorem fetched_list_cached (first later : arguments) (w1 w2 : world)
    (events : list json) (addrs : list string) :
  let name := _get_cache_filename (event_type first) (cache_dir first) (today w1) in
  let run1 := obtain_events json_dump json_load first w1 in
  (_ensure_cache_directory (fs w1) (cache_dir first)).2 = true ->
  name ∉ denied (fs w1) ->
  requests_sent run1 ≠ [] ->
  all_target_events run1 = Some events ->
  json_load (json_dump (JList events)) = Some (JList events) ->
  event_type later = event_type first ->
  cache_dir later = cache_dir first ->
  no_cache later = false ->
  fs w2 = fs_after run1 ->
  today w2 = today w1 ->
  files (fs_after run1) !! name = Some (json_dump (JList events))
  ∧ obtain_events json_dump json_load later w2
    = {| fs_after := fs w2; requests_sent := []; all_target_events := Some events |}
  ∧ main json_dump json_load later addrs w2
    = (fs w2, [], Some (results_summary events (threshold later) addrs)).
Proof.
  intros name run1 Hdir Hname Hsent Hevents Hcodec Htype Hcache Hno Hfs Hday.
  pose proof (cache_filename_nonempty (event_type first) (cache_dir first) (today w1))
    as Hne. fold name in Hne.
  pose proof (ensure_cache_directory_denied (fs w1) (cache_dir first)) as Hden.
  pose proof (ensure_cache_directory_exists (fs w1) (cache_dir first) Hdir) as Hex.
  assert (fs_after run1
          = save_to_cache json_dump
              (_ensure_cache_directory (fs w1) (cache_dir first)).1 name events) as Hafter.
  { subst run1. unfold obtain_events in *.
    destruct (_ensure_cache_directory (fs w1) (cache_dir first)) as [fs1 usable].
    simpl in Hdir. subst usable. fold name in Hsent, Hevents |- *.
    rewrite (bool_decide_eq_false_2 _ Hne) in *. simpl negb in *.
    destruct (if negb (no_cache first) && true && Os.path_exists fs1 name
              then load_from_cache json_load fs1 name else None) as [cached|].
    { simpl in Hsent. congruence. }
    destruct (fetch_all_events_by_type (event_type first) (limit first) (endpoint w1))
      as [requests [fetched|]]; simpl in *; [|discriminate].
    congruence. }
  destruct (_ensure_cache_directory (fs w1) (cache_dir first)) as [fs1 usable].
  simpl in Hden, Hex, Hafter. rewrite <- Hden in Hname.
  split.
  { rewrite Hafter, save_to_cache_files by exact Hname. simpl.
    apply lookup_insert_eq. }
  assert (obtain_events json_dump json_load later w2
          = {| fs_after := fs w2; requests_sent := []; all_target_events := Some events |})
    as Hlater; [|split; [exact Hlater|unfold main; rewrite Hlater; reflexivity]].
  unfold obtain_events. rewrite Htype, Hcache, Hno, Hday, Hfs, Hafter.
  rewrite ensure_cache_directory_again by (apply path_exists_save, Hex).
  fold name. rewrite (bool_decide_eq_false_2 _ Hne). simpl negb. simpl andb.
  assert (Os.path_exists (save_to_cache json_dump fs1 name events) name = true) as ->.
  { rewrite save_to_cache_files by exact Hname.
    unfold Os.path_exists. simpl. rewrite lookup_insert_eq.
    apply orb_true_iff. right. apply bool_decide_eq_true. eauto. }
  rewrite load_after_save by assumption. reflexivity.
Qed.

End CacheProperties.

(** * Instances on sample data *)


Lemma amount_nonneg_five_events :
  ∃ results,
    results_summary Sample.five_events 50 ["0xA"; "0xB"] = Return results
    ∧ Forall (fun r => 0 <= cumulative_amount r) results.
Proof.
  apply (amount_nonneg Sample.five_events 50 ["0xA"; "0xB"]).
  - repeat constructor.
  - repeat constructor; intros z Hz; vm_compute in Hz; injection Hz as <-; lia.
Defined.

Lemma abort_on_second_page :
  let first_page := [Sample.mint "0xA" (JStr "10"); Sample.mint "0xB" (JStr "7")] in
  fetch_all_events_by_type "T" 2
    ([Sample.page_of first_page]
     ++ Sample.graphql_error :: [Sample.page_of [Sample.mint "0xA" (JStr "20")]])
  = ([ {| var_event_type := "T"; var_limit := 2; var_offset := 0 |} ]
     ++ [ {| var_event_type := "T"; var_limit := 2; var_offset := 2 |} ],
     Some first_page).
Proof.
  intros first_page.
  apply (abort_returns_accumulator "T" 2 [Sample.page_of first_page]
           [Sample.page_of [Sample.mint "0xA" (JStr "20")]] Sample.graphql_error
           [ {| var_event_type := "T"; var_limit := 2; var_offset := 0 |} ]
           {| all_events_of_type := first_page; offset := 2; page := 2 |}).
  - reflexivity.
  - reflexivity.
Defined.

Lemma offsets_of_three_pages :
  let script :=
    [Sample.page_of [Sample.mint "0xA" (JStr "10"); Sample.mint "0xB" (JStr "7")];
     Sample.page_of [Sample.mint "0xA" (JStr "20"); Sample.mint "0xC" (JStr "900")];
     Sample.page_of [Sample.mint "0xA" (JStr "30")]] in
  let offsets := var_offset <$> (fetch_all_events_by_type "T" 2 script).1 in
  0 < 2
  ∧ offsets = (fun i : nat => Z.of_nat i * 2) <$> seq 0 (length offsets)
  ∧ StronglySorted Z.lt offsets
  ∧ NoDup offsets.
Proof.
  intros script offsets. split; [lia|].
  apply (offsets_arithmetic "T" 2 script). lia.
Defined.


Lemma partial_fetch_cached :
  let later := {| event_type := event_type Sample.args;
                  threshold := 1;
                  limit := 100;
                  cache_dir := cache_dir Sample.args;
                  no_cache := false |} in
  let run1 := obtain_events JsonText.dump JsonText.load Sample.args Sample.first_world in
  let w2 := {| fs := fs_after run1; today := "20250314";
               endpoint := [Sample.page_of Sample.five_events] |} in
  let partial := [Sample.mint "0xA" (JStr "10"); Sample.mint "0xB" (JStr "7")] in
  files (fs_after run1)
    !! _get_cache_filename (event_type Sample.args) (cache_dir Sample.args) "20250314"
  = Some (JsonText.dump (JList partial))
  ∧ obtain_events JsonText.dump JsonText.load later w2
    = {| fs_after := fs w2; requests_sent := []; all_target_events := Some partial |}
  ∧ main JsonText.dump JsonText.load later ["0xA"] w2
    = (fs w2, [], Some (results_summary partial (threshold later) ["0xA"])).
Proof.
  intros later run1 w2 partial.
  apply (fetched_list_cached JsonText.dump JsonText.load Sample.args later
           Sample.first_world w2 partial ["0xA"]).
  - vm_compute. reflexivity.
  - apply not_elem_of_empty.
  - vm_compute. discriminate.
  - vm_compute. reflexivity.
  - vm_compute. reflexivity.
  - reflexivity.
  - reflexivity.
  - reflexivity.
  - reflexivity.
  - reflexivity.
Defined.

(** The scenarios of the specification. *)

(** Five events, three of the address [0xA] with the amounts 10, 20 and
    30, threshold 50: the address meets the criteria with amount 60 and
    3 events found. *)
Example five_events_scenario :
  results_summary Sample.five_events 50 ["0xA"]
  = Return [ {| address := "0xA";
                meets_criteria := true;
                cumulative_amount := 60;
                events_found := 3;
                error := None |} ].
Proof. reflexivity. Qed.

(** The boundary: with threshold 60 the same address does not meet the
    criteria. *)
Example five_events_at_threshold :
  check_address Sample.five_events 60 "0xA"
  = Return {| address := "0xA";
              meets_criteria := false;
              cumulative_amount := 60;
              events_found := 3;
              error := None |}.
Proof. reflexivity. Qed.

(** Page size 100, pages of 100, 100 and 40 records: three requests, at
    the offsets 0, 100 and 200, and 240 records returned. *)
Example three_pages_scenario :
  let full := Sample.page_of (replicate 100 (Sample.mint "0xA" (JStr "1"))) in
  let last := Sample.page_of (replicate 40 (Sample.mint "0xB" (JStr "2"))) in
  let run := fetch_all_events_by_type "T" 100 [full; full; last] in
  var_offset <$> run.1 = [0; 100; 200]
  ∧ length <$> run.2 = Some 240%nat.
Proof. vm_compute. split; reflexivity. Qed.

(** An error on the very first page: the empty list is written to the
    cache, and a later run on the same date reads it, sends no request,
    and reports every address with the message for no global events. *)
Example first_page_error_cached :
  let w1 := {| fs := Sample.empty_fs; today := "20250314";
               endpoint := [Sample.graphql_error] |} in
  let run1 := obtain_events JsonText.dump JsonText.load Sample.args w1 in
  let w2 := {| fs := fs_after run1; today := "20250314";
               endpoint := [Sample.page_of Sample.five_events] |} in
  all_target_events run1 = Some []
  ∧ files (fs_after run1) !! "data/cache/0x2cc_minting_manager_MintEvent_events_20250314.json"
    = Some "[]"
  ∧ (main JsonText.dump JsonText.load Sample.args ["0xA"] w2).1.2 = []
  ∧ (main JsonText.dump JsonText.load Sample.args ["0xA"] w2).2
    = Some (Return [no_global_events "0xA"]).
Proof. vm_compute. repeat split. Qed.


(** * Further properties *)

(** ** Paginator: pages, end of data, limits *)



Lemma list_ascii_length (s : string) :
  length (list_ascii_of_string s) = String.length s.
Proof. induction s as [|c s IH]; simpl; [reflexivity|]. f_equal. exact IH. Qed.

Lemma iterate_len (v : json) (items : list json) (n : Z) :
  Py.iterate v = Return items -> Py.len v = Return n -> n = Z.of_nat (length items).
Proof.
  destruct v as [| | | |s|l|d]; simpl; try discriminate; intros [= <-] [= <-].
  - rewrite length_fmap, list_ascii_length. reflexivity.
  - reflexivity.
  - rewrite length_fmap. reflexivity.
Qed.

(** Whatever an iteration does, it keeps what was accumulated and puts
    the new events behind it; when the loop goes on, the page had at
    least [limit] elements. *)
Lemma page_iteration_extends (limit : Z) (st : page_state) (reply : http_reply) :
  match page_iteration limit st reply with
  | Break all_events => ∃ items, all_events = all_events_of_type st ++ items
  | Next st' =>
      ∃ items,
        all_events_of_type st' = all_events_of_type st ++ items
        ∧ limit <= Z.of_nat (length items)
        ∧ offset st' = offset st + limit
        ∧ page st' = page st + 1
  end.
Proof.
  assert (∃ items : list json, all_events_of_type st = all_events_of_type st ++ items)
    as Hsame by (exists []; rewrite app_nil_r; reflexivity).
  unfold page_iteration, page_try.
  destruct (execute_query reply) as [result|e]; simpl; [|exact Hsame].
  destruct (Py.contains result "errors") as [[]|]; simpl; try exact Hsame.
  { destruct (Py.subscript result "errors"); exact Hsame. }
  destruct (Py.get_default result "data" (JDict [])) as [events_data|];
    simpl; [|exact Hsame].
  destruct (Py.truthy events_data); simpl; [|exact Hsame].
  destruct (Py.get_default events_data "events" (JList [])) as [events_page|];
    simpl; [|exact Hsame].
  destruct (Py.truthy events_page); simpl; [|exact Hsame].
  destruct (Py.iterate events_page) as [items|] eqn:Eiter; simpl; [|exact Hsame].
  destruct (Py.len events_page) as [n|] eqn:Elen; simpl; [|exact Hsame].
  pose proof (iterate_len _ _ _ Eiter Elen) as ->.
  destruct (_ <? limit) eqn:Elt.
  - exists items. reflexivity.
  - exists items. simpl. apply Z.ltb_ge in Elt. repeat split. exact Elt.
Qed.

Lemma paginate_prefix (event_type : string) (limit : Z) (script : list http_reply)
    (st : page_state) :
  all_events_of_type st `prefix_of` final_events (paginate event_type limit st script).2.
Proof.
  revert st. induction script as [|reply script IH]; intros st; simpl; [reflexivity|].
  pose proof (page_iteration_extends limit st reply) as Hext.
  destruct (page_iteration limit st reply) as [all_events|st'].
  - destruct Hext as [items ->]. simpl. apply prefix_app_r. reflexivity.
  - destruct Hext as (items & Hacc & _). specialize (IH st').
    destruct (paginate event_type limit st' script) as [requests final]. simpl in *.
    rewrite Hacc in IH. eapply prefix_app_l. exact IH.
Qed.








Lemma paginate_running (event_type : string) (limit : Z) (script : list http_reply)
    (st0 st : page_state) (requests : list variables) :
  paginate event_type limit st0 script = (requests, Running st) ->
  length requests = length script
  ∧ offset st = offset st0 + Z.of_nat (length script) * limit
  ∧ page st = page st0 + Z.of_nat (length script)
  ∧ Z.of_nat (length (all_events_of_type st0)) + Z.of_nat (length script) * limit
    <= Z.of_nat (length (all_events_of_type st)).
Proof.
  revert st0 requests. induction script as [|reply script IH]; intros st0 requests.
  - simpl. intros [= <- <-]. simpl. repeat split; lia.
  - cbn [paginate]. pose proof (page_iteration_extends limit st0 reply) as Hext.
    destruct (page_iteration limit st0 reply) as [all_events|st1]; [discriminate|].
    destruct Hext as (items & Hacc & Hlen & Hoff & Hpage).
    destruct (paginate event_type limit st1 script) as [requests1 final] eqn:E.
    intros [= <- ->]. destruct (IH _ _ E) as (H1 & H2 & H3 & H4).
    rewrite Hacc, length_app in H4. cbn [length].
    repeat split; [f_equal; exact H1|lia|lia|lia].
Qed.

(** X3: as long as the loop is running, it has sent one request per
    reply, the next offset is the number of requests times the limit,
    the page counter is one more than the number of requests, and the
    next offset does not exceed the number of events accumulated. *)
Theorem running_invariant (event_type : string) (limit : Z) (script : list http_reply)
    (requests : list variables) (st : page_state) :
  paginate event_type limit initial_page_state script = (requests, Running st) ->
  length requests = length script
  ∧ offset st = Z.of_nat (length script) * limit
  ∧ page st = 1 + Z.of_nat (length script)
  ∧ offset st <= Z.of_nat (length (all_events_of_type st)).
Proof.
  intros H. destruct (paginate_running _ _ _ _ _ _ H) as (H1 & H2 & H3 & H4).
  simpl in *. repeat split; [exact H1|lia|lia|lia].
Qed.



(** X5: what the loop has accumulated is never dropped or reordered:
    the list the function returns begins with the events accumulated
    after any earlier part of the replies. *)
Theorem accumulated_is_prefix (event_type : string) (limit : Z)
    (before after : list http_reply) (requests : list variables) (st : page_state)
    (events : list json) :
  paginate event_type limit initial_page_state before = (requests, Running st) ->
  (fetch_all_events_by_type event_type limit (before ++ after)).2 = Some events ->
  all_events_of_type st `prefix_of` events.
Proof.
  intros Hbefore. unfold fetch_all_events_by_type. rewrite paginate_app, Hbefore.
  pose proof (paginate_prefix event_type limit after st) as Hpre.
  destruct (paginate event_type limit st after) as [requests' [st'|all_events]];
    simpl in *; [discriminate|].
  intros [= <-]. exact Hpre.
Qed.

(** ** Aggregator: composition *)

Lemma sum_app (l1 l2 : list Z) : Spec.sum (l1 ++ l2) = Spec.sum l1 + Spec.sum l2.
Proof.
  unfold Spec.sum. induction l1 as [|z l1 IH]; simpl; [reflexivity|].
  rewrite IH. lia.
Qed.

Lemma sum_Permutation (l1 l2 : list Z) : l1 ≡ₚ l2 -> Spec.sum l1 = Spec.sum l2.
Proof.
  unfold Spec.sum. induction 1 as [|z l1 l2 _ IH|y z l|l1 l2 l3 _ IH1 _ IH2]; simpl.
  - reflexivity.
  - rewrite IH. reflexivity.
  - lia.
  - rewrite IH1. exact IH2.
Qed.

(** X6: the function is additive over concatenation: for two lists of
    events, the sum returned for their concatenation is the sum of the
    two sums, and so are the two counters. *)
Theorem sum_of_concatenation (events1 events2 : list json) :
  fst (calculate_cumulative_amount (events1 ++ events2))
  = fst (calculate_cumulative_amount events1) + fst (calculate_cumulative_amount events2)
  ∧ processed_count (final_counters (events1 ++ events2))
    = (processed_count (final_counters events1)
       + processed_count (final_counters events2))%nat
  ∧ malformed_data_count (final_counters (events1 ++ events2))
    = (malformed_data_count (final_counters events1)
       + malformed_data_count (final_counters events2))%nat.
Proof.
  rewrite !returned_sum, !final_counters_spec. simpl.
  unfold Spec.parsed, Spec.malformed.
  rewrite omap_app, filter_app, sum_app, !length_app. repeat split.
Qed.

(** X7: the order of the events does not matter: two lists with the
    same events in another order give the same sum and the same
    counters. *)
Theorem order_does_not_matter (events1 events2 : list json) :
  events1 ≡ₚ events2 ->
  fst (calculate_cumulative_amount events1) = fst (calculate_cumulative_amount events2)
  ∧ final_counters events1 = final_counters events2.
Proof.
  intros Hperm. rewrite !returned_sum, !final_counters_spec.
  unfold Spec.parsed, Spec.malformed.
  assert (omap Spec.amount events1 ≡ₚ omap Spec.amount events2) as Hparsed
    by (rewrite Hperm; reflexivity).
  assert (filter (fun e => Spec.amount e = None) events1
          ≡ₚ filter (fun e => Spec.amount e = None) events2) as Hbad
    by (rewrite Hperm; reflexivity).
  rewrite (sum_Permutation _ _ Hparsed).
  rewrite (Permutation_length Hparsed), (Permutation_length Hbad).
  split; reflexivity.
Qed.

(** ** Aggregator: decimal amounts *)











(** ** Decision Engine: errors, independence, monotonicity *)

Lemma user_specific_events_not_record (events : list json) (addr : string) :
  ¬ Spec.records events -> user_specific_events events addr = Raise AttributeError.
Proof.
  induction events as [|event events IH]; intros Hnot.
  - exfalso. apply Hnot. constructor.
  - destruct (Py.is_dict event) eqn:Hd.
    + assert (¬ Spec.records events) as Hrest.
      { intros Hrec. apply Hnot. constructor; assumption. }
      specialize (IH Hrest). simpl. rewrite IH.
      destruct event as [| | | | | |d]; try discriminate Hd. simpl.
      destruct (Py.dict_get "data" d) as [[| | | | | |data]|]; reflexivity.
    + destruct event; try discriminate Hd; reflexivity.
Qed.

Lemma mapM_Raise {A B : Type} (f : A -> outcome B) (e : exn) (a : A) (l : list A) :
  (∀ a, f a = Raise e) -> mapM f (a :: l) = Raise e.
Proof. intros Hf. simpl. rewrite Hf. reflexivity. Qed.

Lemma results_summary_not_records (events : list json) (threshold : Z)
    (addr : string) (addrs : list string) :
  ¬ Spec.records events ->
  results_summary events threshold (addr :: addrs) = Raise AttributeError.
Proof.
  intros Hnot. unfold results_summary.
  destruct events as [|e events]; [exfalso; apply Hnot; constructor|].
  apply mapM_Raise. intros a. unfold check_address.
  rewrite (user_specific_events_not_record _ _ Hnot). reflexivity.
Qed.

(** X9: as soon as one element of the global list is not an object,
    and there is an address to check, [main] ends with an
    [AttributeError] that nothing catches, whatever the addresses and
    however many well-formed events the list holds. *)
Theorem non_record_event_ends_main (events : list json) (threshold : Z)
    (addr : string) (addrs : list string) :
  ¬ Spec.records events ->
  results_summary events threshold (addr :: addrs) = Raise AttributeError.
Proof. apply results_summary_not_records. Qed.

(** X10: an address without attributable events never meets the
    criteria, whatever the threshold, a negative one included: its
    entry has amount 0, no event found and no error. *)
Theorem no_attributable_event (events : list json) (threshold : Z) (addr : string) :
  Spec.records events ->
  filter (fun e => Spec.attributable addr e = true) events = [] ->
  check_address events threshold addr
  = Return {| address := addr;
              meets_criteria := false;
              cumulative_amount := 0;
              events_found := 0;
              error := None |}.
Proof.
  intros Hrec Hnone. rewrite (check_address_records _ _ _ Hrec).
  unfold Spec.verdict, Spec.attributable_sum. rewrite Hnone. reflexivity.
Qed.




(** X12: raising the threshold never turns an address that does not
    meet the criteria into one that does: if an entry meets the
    criteria for a threshold, the entry for any lower threshold meets
    them too, with the same amount and the same number of events. *)
Theorem threshold_monotone (events : list json) (low high : Z) (addr : string)
    (r : AddressResult) :
  low <= high ->
  check_address events high addr = Return r ->
  meets_criteria r = true ->
  check_address events low addr
  = Return {| address := address r;
              meets_criteria := true;
              cumulative_amount := cumulative_amount r;
              events_found := events_found r;
              error := error r |}.
Proof.
  intros Hle. unfold check_address.
  destruct (user_specific_events events addr) as [user_events|e]; simpl; [|discriminate].
  destruct user_events as [|e user_events].
  - intros [= <-]. discriminate.
  - intros [= <-]. simpl. intros Hmeets.
    apply bool_decide_eq_true in Hmeets.
    rewrite bool_decide_eq_true_2 by lia. reflexivity.
Qed.

Lemma check_address_address (events : list json) (threshold : Z) (addr : string)
    (r : AddressResult) :
  check_address events threshold addr = Return r -> address r = addr.
Proof.
  unfold check_address.
  destruct (user_specific_events events addr) as [[|e user_events]|]; simpl;
    try discriminate; intros [= <-]; reflexivity.
Qed.

Lemma mapM_Return_inv {A B : Type} (f : A -> outcome B) (l : list A) (rs : list B) :
  mapM f l = Return rs -> Forall2 (fun a r => f a = Return r) l rs.
Proof.
  revert rs. induction l as [|a l IH]; intros rs; simpl.
  - intros [= <-]. constructor.
  - destruct (f a) as [r|e] eqn:Ha; simpl; [|discriminate].
    destruct (mapM f l) as [rs'|e]; simpl; [|discriminate].
    intros [= <-]. constructor; [exact Ha|]. apply IH. reflexivity.
Qed.

(** X13: the entries are one per address, in the order of the
    addresses, and the entry of an address is the one it gets when it
    is checked alone: it does not depend on the other addresses of the
    list nor on its place in it. *)
Theorem entries_are_independent (events : list json) (threshold : Z)
    (addrs : list string) (results : list AddressResult) :
  results_summary events threshold addrs = Return results ->
  Forall2 (fun addr r =>
             address r = addr
             ∧ results_summary events threshold [addr] = Return [r])
    addrs results.
Proof.
  unfold results_summary. destruct events as [|e events].
  - intros [= <-]. apply Forall2_fmap_r, Forall_Forall2_diag, Forall_forall.
    intros addr _. split; reflexivity.
  - intros H. apply mapM_Return_inv in H.
    eapply Forall2_impl; [exact H|]. intros addr r Hr. simpl in Hr. split.
    + eapply check_address_address. exact Hr.
    + simpl. rewrite Hr. reflexivity.
Qed.

Lemma attributable_unique (a b : string) (event : json) :
  Spec.attributable a event = true -> Spec.attributable b event = true -> a = b.
Proof.
  unfold Spec.attributable. destruct (Spec.payload event) as [data|]; [|discriminate].
  destruct (Py.dict_get "user" data) as [[| | | |user| |]|]; try discriminate.
  intros Ha Hb. apply bool_decide_eq_true in Ha, Hb. congruence.
Qed.

Lemma sum_list_cons (n : nat) (l : list nat) :
  sum_list (n :: l) = (n + sum_list l)%nat.
Proof. reflexivity. Qed.

Lemma attributed_at_most_once (event : json) (addrs : list string) :
  NoDup addrs ->
  (sum_list ((fun a => if Spec.attributable a event then 1 else 0) <$> addrs) <= 1)%nat.
Proof.
  induction 1 as [|a addrs Hnotin _ IH]; [simpl; lia|].
  rewrite fmap_cons, sum_list_cons.
  destruct (Spec.attributable a event) eqn:Ha; [|exact IH].
  assert (sum_list ((fun b => if Spec.attributable b event then 1 else 0) <$> addrs)
          = 0)%nat as ->; [|lia].
  clear IH. induction addrs as [|b addrs IH]; [reflexivity|].
  rewrite fmap_cons, sum_list_cons.
  destruct (Spec.attributable b event) eqn:Hb.
  - exfalso. apply Hnotin. rewrite (attributable_unique a b event Ha Hb). left.
  - apply IH. intros Hin. apply Hnotin. right. exact Hin.
Qed.

Lemma found_sum_bound (events : list json) (addrs : list string) :
  NoDup addrs ->
  (sum_list ((fun a => length (filter (fun e => Spec.attributable a e = true) events))
               <$> addrs)
   <= length events)%nat.
Proof.
  intros Hnodup. induction events as [|event events IH].
  - clear. induction addrs as [|a addrs IHa]; [reflexivity|].
    rewrite fmap_cons, sum_list_cons. exact IHa.
  - pose proof (attributed_at_most_once event addrs Hnodup) as Hone.
    assert (sum_list ((fun a => length (filter (fun e => Spec.attributable a e = true)
                                          (event :: events))) <$> addrs)
            = (sum_list ((fun a => if Spec.attributable a event then 1 else 0) <$> addrs)
               + sum_list ((fun a => length (filter (fun e => Spec.attributable a e = true)
                                               events)) <$> addrs))%nat) as ->.
    { clear. induction addrs as [|a addrs IHa]; [reflexivity|].
      rewrite !fmap_cons, !sum_list_cons, IHa, filter_cons.
      destruct (Spec.attributable a event); simpl; lia. }
    cbn [length]. lia.
Qed.



(** X14: an event is attributed to one address at most: for addresses
    that are pairwise different, the numbers of events found in the
    entries add up to no more than the number of events in the global
    list. *)
Theorem found_events_bound (events : list json) (threshold : Z)
    (addrs : list string) (results : list AddressResult) :
  NoDup addrs ->
  results_summary events threshold addrs = Return results ->
  (sum_list (events_found <$> results) <= length events)%nat.
Proof.
  intros Hnodup Hres.
  destruct events as [|e events].
  { unfold results_summary in Hres. injection Hres as <-.
    clear. induction addrs as [|a addrs IH]; [reflexivity|].
    rewrite !fmap_cons, sum_list_cons. exact IH. }
  destruct (decide (Spec.records (e :: events))) as [Hrec|Hnot].
  - rewrite (results_summary_records _ _ _ Hrec) in Hres. injection Hres as <-.
    etrans; [|exact (found_sum_bound (e :: events) addrs Hnodup)].
    apply Nat.eq_le_incl. f_equal.
    clear. induction addrs as [|b addrs IH]; [reflexivity|].
    rewrite !fmap_cons. f_equal. exact IH.
  - destruct addrs as [|a addrs].
    + simpl in Hres. injection Hres as <-. simpl. lia.
    + rewrite (results_summary_not_records _ _ _ _ Hnot) in Hres. discriminate.
Qed.

(** ** Event Cache: hits, misses, failures, and what is left alone *)


Section CacheBehaviour.

Variable json_dump : json -> string.
Variable json_load : string -> option json.

(** X16: with [--no-cache] the cache file is not read: the requests
    sent and the events worked with are those of the live fetch,
    whatever the file system holds. *)
Theorem no_cache_fetches (args : arguments) (w : world) :
  no_cache args = true ->
  requests_sent (obtain_events json_dump json_load args w)
  = (fetch_all_events_by_type (event_type args) (limit args) (endpoint w)).1
  ∧ all_target_events (obtain_events json_dump json_load args w)
    = (fetch_all_events_by_type (event_type args) (limit args) (endpoint w)).2.
Proof.
  intros Hno. unfold obtain_events. rewrite Hno.
  destruct (_ensure_cache_directory (fs w) (cache_dir args)) as [fs1 usable].
  assert ((match (if usable
                  then Some (_get_cache_filename (event_type args) (cache_dir args) (today w))
                  else None) with
           | Some name =>
               if negb true && negb (bool_decide (name = EmptyString))
                  && Os.path_exists fs1 name
               then load_from_cache json_load fs1 name
               else None
           | None => None
           end) = None) as ->.
  { destruct usable; reflexivity. }
  destruct (fetch_all_events_by_type (event_type args) (limit args) (endpoint w))
    as [requests [events|]]; split; reflexivity.
Qed.

Lemma obtain_events_hit (args : arguments) (w : world) (events : list json) :
  let name := _get_cache_filename (event_type args) (cache_dir args) (today w) in
  no_cache args = false ->
  Os.path_exists (fs w) (cache_dir args) = true ->
  load_from_cache json_load (fs w) name = Some events ->
  obtain_events json_dump json_load args w
  = {| fs_after := fs w; requests_sent := []; all_target_events := Some events |}.
Proof.
  intros name Hno Hdir Hload. unfold obtain_events.
  rewrite (ensure_cache_directory_again _ _ Hdir), Hno. fold name.
  rewrite (bool_decide_eq_false_2 (name = EmptyString))
    by apply cache_filename_nonempty.
  assert (Os.path_exists (fs w) name = true) as ->.
  { unfold load_from_cache, Os.read_text in Hload. unfold Os.path_exists.
    destruct (bool_decide (name ∈ denied (fs w))); [discriminate|].
    destruct (files (fs w) !! name) as [text|] eqn:E; [|discriminate].
    apply orb_true_iff. right. apply bool_decide_eq_true. eauto. }
  simpl. rewrite Hload. reflexivity.
Qed.

(** X17: a cache file that holds a list is a hit, an empty list
    included: the run sends no request, writes nothing, and works with
    the list of the file. *)
Theorem cache_hit (args : arguments) (w : world) (events : list json) :
  let name := _get_cache_filename (event_type args) (cache_dir args) (today w) in
  no_cache args = false ->
  Os.path_exists (fs w) (cache_dir args) = true ->
  load_from_cache json_load (fs w) name = Some events ->
  obtain_events json_dump json_load args w
  = {| fs_after := fs w; requests_sent := []; all_target_events := Some events |}.
Proof. apply obtain_events_hit. Qed.

(** X18: a cache file that is missing, cannot be read, is not JSON or
    does not hold a list is a miss: the run fetches, and the requests
    sent and the events worked with are those of the live fetch. *)
Theorem cache_miss_fetches (args : arguments) (w : world) :
  let name := _get_cache_filename (event_type args) (cache_dir args) (today w) in
  load_from_cache json_load (_ensure_cache_directory (fs w) (cache_dir args)).1 name
  = None ->
  requests_sent (obtain_events json_dump json_load args w)
  = (fetch_all_events_by_type (event_type args) (limit args) (endpoint w)).1
  ∧ all_target_events (obtain_events json_dump json_load args w)
    = (fetch_all_events_by_type (event_type args) (limit args) (endpoint w)).2.
Proof.
  intros name Hload. unfold obtain_events.
  destruct (_ensure_cache_directory (fs w) (cache_dir args)) as [fs1 usable].
  simpl in Hload. fold name.
  assert ((match (if usable then Some name else None) with
           | Some name0 =>
               if negb (no_cache args) && negb (bool_decide (name0 = EmptyString))
                  && Os.path_exists fs1 name0
               then load_from_cache json_load fs1 name0
               else None
           | None => None
           end) = None) as ->.
  { destruct usable; [|reflexivity]. rewrite Hload.
    destruct (_ && _ && _); reflexivity. }
  destruct (fetch_all_events_by_type (event_type args) (limit args) (endpoint w))
    as [requests [events|]]; split; reflexivity.
Qed.

(** X19: a cache that cannot be written does not stop the run: when
    the cache directory cannot be created, or the cache file cannot be
    opened for writing, the run leaves every file as it was and still
    works with the events of the live fetch. *)
Theorem unwritable_cache_tolerated (args : arguments) (w : world) :
  let name := _get_cache_filename (event_type args) (cache_dir args) (today w) in
  (_ensure_cache_directory (fs w) (cache_dir args)).2 = false ∨ name ∈ denied (fs w) ->
  files (fs_after (obtain_events json_dump json_load args w)) = files (fs w)
  ∧ requests_sent (obtain_events json_dump json_load args w)
    = (fetch_all_events_by_type (event_type args) (limit args) (endpoint w)).1
  ∧ all_target_events (obtain_events json_dump json_load args w)
    = (fetch_all_events_by_type (event_type args) (limit args) (endpoint w)).2.
Proof.
  intros name Hbad. unfold obtain_events.
  pose proof (ensure_cache_directory_denied (fs w) (cache_dir args)) as Hden.
  assert (files (_ensure_cache_directory (fs w) (cache_dir args)).1 = files (fs w))
    as Hfiles.
  { unfold _ensure_cache_directory, Os.makedirs.
    destruct (Os.path_exists (fs w) (cache_dir args)); simpl; [reflexivity|].
    case_bool_decide; reflexivity. }
  destruct (_ensure_cache_directory (fs w) (cache_dir args)) as [fs1 usable].
  simpl in Hbad, Hden, Hfiles. fold name.
  destruct usable.
  - destruct Hbad as [Hbad|Hbad]; [discriminate|]. rewrite <- Hden in Hbad.
    assert (load_from_cache json_load fs1 name = None) as Hload.
    { unfold load_from_cache, Os.read_text.
      rewrite bool_decide_eq_true_2 by exact Hbad. reflexivity. }
    assert (∀ events, save_to_cache json_dump fs1 name events = fs1) as Hsave.
    { intros events. unfold save_to_cache, Os.write_text.
      rewrite bool_decide_eq_true_2 by exact Hbad. reflexivity. }
    rewrite Hload.
    destruct (_ && _ && _);
      destruct (fetch_all_events_by_type (event_type args) (limit args) (endpoint w))
        as [requests [events|]]; simpl;
      try destruct (negb _); rewrite ?Hsave; repeat split; exact Hfiles.
  - destruct (fetch_all_events_by_type (event_type args) (limit args) (endpoint w))
      as [requests [events|]]; simpl; repeat split; exact Hfiles.
Qed.


End CacheBehaviour.

Section CacheKey.

Variable json_dump : json -> string.
Variable json_load : string -> option json.

Lemma live_fetch_saved (args : arguments) (w : world) (events : list json) :
  let name := _get_cache_filename (event_type args) (cache_dir args) (today w) in
  let run := obtain_events json_dump json_load args w in
  let fs1 := (_ensure_cache_directory (fs w) (cache_dir args)).1 in
  (_ensure_cache_directory (fs w) (cache_dir args)).2 = true ->
  requests_sent run ≠ [] ->
  all_target_events run = Some events ->
  fs_after run = save_to_cache json_dump fs1 name events.
Proof.
  intros name run fs1 Hdir Hsent Hevents. subst run fs1.
  pose proof (cache_filename_nonempty (event_type args) (cache_dir args) (today w))
    as Hne. fold name in Hne.
  unfold obtain_events in *.
  destruct (_ensure_cache_directory (fs w) (cache_dir args)) as [fs1 usable].
  simpl in Hdir. subst usable. fold name in Hsent, Hevents |- *.
  rewrite (bool_decide_eq_false_2 _ Hne) in *. simpl negb in *.
  destruct (if negb (no_cache args) && true && Os.path_exists fs1 name
            then load_from_cache json_load fs1 name else None) as [cached|].
  { simpl in Hsent. congruence. }
  destruct (fetch_all_events_by_type (event_type args) (limit args) (endpoint w))
    as [requests [fetched|]]; simpl in *; [|discriminate].
  congruence.
Qed.

(** X21: the cache is keyed by the file name alone: a later run whose
    event type, directory and date give the file name of an earlier
    live fetch works with the list that fetch returned, without a
    request, also when its event type is another string than the one
    fetched (the types [a::b] and [a_b] give the same name). *)
Theorem cache_keyed_by_file_name (first later : arguments) (w1 w2 : world)
    (events : list json) :
  let name := _get_cache_filename (event_type first) (cache_dir first) (today w1) in
  let run1 := obtain_events json_dump json_load first w1 in
  (_ensure_cache_directory (fs w1) (cache_dir first)).2 = true ->
  name ∉ denied (fs w1) ->
  requests_sent run1 ≠ [] ->
  all_target_events run1 = Some events ->
  json_load (json_dump (JList events)) = Some (JList events) ->
  _get_cache_filename (event_type later) (cache_dir later) (today w2) = name ->
  cache_dir later = cache_dir first ->
  no_cache later = false ->
  fs w2 = fs_after run1 ->
  obtain_events json_dump json_load later w2
  = {| fs_after := fs w2; requests_sent := []; all_target_events := Some events |}.
Proof.
  intros name run1 Hdir Hname Hsent Hevents Hcodec Hsame Hcache Hno Hfs.
  pose proof (live_fetch_saved first w1 events Hdir Hsent Hevents) as Hafter.
  fold run1 name in Hafter.
  pose proof (ensure_cache_directory_denied (fs w1) (cache_dir first)) as Hden.
  pose proof (ensure_cache_directory_exists (fs w1) (cache_dir first) Hdir) as Hex.
  rewrite <- Hden in Hname.
  apply obtain_events_hit.
  - exact Hno.
  - rewrite Hcache, Hfs, Hafter. apply (path_exists_save json_dump json_load), Hex.
  - rewrite Hsame, Hfs, Hafter. apply load_after_save; assumption.
Qed.

End CacheKey.

(** ** The start of [main] *)

Lemma strings_of_spec (l : list json) (addrs : list string) :
  strings_of l = Some addrs <-> l = JStr <$> addrs.
Proof.
  revert addrs. induction l as [|v l IH]; intros addrs; simpl.
  - split.
    + intros [= <-]. reflexivity.
    + destruct addrs; [reflexivity|discriminate].
  - destruct v as [| | | |s| |];
      try (split; [discriminate|destruct addrs; discriminate]).
    destruct (strings_of l) as [rest|] eqn:E; simpl.
    + split.
      * intros [= <-]. rewrite fmap_cons. f_equal. apply IH. reflexivity.
      * destruct addrs as [|a addrs]; [discriminate|]. rewrite fmap_cons.
        intros [= -> Hl]. apply IH in Hl. congruence.
    + split; [discriminate|].
      destruct addrs as [|a addrs]; [discriminate|]. rewrite fmap_cons.
      intros [= -> Hl]. apply IH in Hl. discriminate.
Qed.

Section MainStart.

Variable json_dump : json -> string.
Variable json_load : string -> option json.

(** X22: an addresses file that can be read is accepted exactly when
    its content is a JSON list whose elements are all strings, and the
    addresses to check are then these strings, in the order of the
    file. *)
Theorem addresses_file_accepted (cl : command_line) (fs : filesystem)
    (path text : string) (addrs : list string) :
  cli_addresses_file cl = Some path ->
  path ≠ EmptyString ->
  path ∉ denied fs ->
  files fs !! path = Some text ->
  load_addresses json_load cl fs = inr addrs
  <-> json_load text = Some (JList (JStr <$> addrs)).
Proof.
  intros Hfile Hne Hden Htext. unfold load_addresses, given.
  rewrite Hfile. simpl. rewrite (bool_decide_eq_false_2 _ Hne). simpl.
  rewrite (bool_decide_eq_false_2 _ Hden), Htext.
  destruct (json_load text) as [[| | | | |l|]|];
    try (split; discriminate).
  destruct (strings_of l) as [found|] eqn:E.
  - apply strings_of_spec in E. subst l. split.
    + intros [= ->]. reflexivity.
    + intros [= H]. f_equal.
      clear -H. revert addrs H. induction found as [|a found IH]; intros [|b addrs];
        try discriminate; [reflexivity|].
      rewrite !fmap_cons. intros [= -> H]. f_equal. apply IH. exact H.
  - split; [discriminate|]. intros [= ->].
    assert (strings_of (JStr <$> addrs) = Some addrs) as H
      by (apply strings_of_spec; reflexivity).
    congruence.
Qed.

(** X23: with no address to check, because [--address] is the empty
    string or because the addresses file holds the empty list, [main]
    does not return after its error message: it ends with the
    [NameError] of [parser.print_help()], before any request and
    before touching the file system. *)
Theorem no_address_name_error (cl : command_line) (w : world) :
  (given (cli_addresses_file cl) = false ∧ given (cli_address cl) = false)
  ∨ (∃ path text,
       cli_addresses_file cl = Some path
       ∧ path ≠ EmptyString
       ∧ (path ∉ denied (fs w))
       ∧ files (fs w) !! path = Some text
       ∧ json_load text = Some (JList [])) ->
  run_main json_dump json_load cl w = (fs w, [], NameError).
Proof.
  intros [[Hfile Haddr]|(path & text & Hfile & Hne & Hden & Htext & Hload)];
    unfold run_main, load_addresses.
  - rewrite Hfile, Haddr. reflexivity.
  - unfold given. rewrite Hfile. simpl. rewrite (bool_decide_eq_false_2 _ Hne). simpl.
    rewrite (bool_decide_eq_false_2 _ Hden), Htext, Hload. reflexivity.
Qed.

(** X24: a run that ends at an error message or at the [NameError] has
    sent no request and has left the file system as it was: not even
    the cache directory has been created. *)
Theorem rejected_before_any_effect (cl : command_line) (w : world)
    (after : filesystem) (requests : list variables) (ended : main_end) :
  run_main json_dump json_load cl w = (after, requests, ended) ->
  ended = NameError ∨ (∃ message, ended = Returned message) ->
  after = fs w ∧ requests = [].
Proof.
  unfold run_main.
  destruct (load_addresses json_load cl (fs w)) as [e|[|a addrs]].
  - intros [= <- <- <-] _. split; reflexivity.
  - intros [= <- <- <-] _. split; reflexivity.
  - destruct (main json_dump json_load (cli_options cl) (a :: addrs) w)
      as [[fs' reqs] [[summary|e]|]]; intros [= <- <- <-] [H|[message H]];
      discriminate H.
Qed.

End MainStart.

(** ** Cache file name *)

Lemma chars_append (a b : string) :
  list_ascii_of_string (a +:+ b) = list_ascii_of_string a ++ list_ascii_of_string b.
Proof. induction a as [|c a IH]; simpl; [reflexivity|]. f_equal. exact IH. Qed.

Lemma replace_go_chars (old new : string) (s : string) (skip : nat) (x : ascii) :
  x ∈ list_ascii_of_string (Os.replace_go old new skip s) ->
  x ∈ list_ascii_of_string s ∨ x ∈ list_ascii_of_string new.
Proof.
  revert skip. induction s as [|c s IH]; intros skip.
  - destruct skip; simpl; intros H; left; exact H.
  - cbn [list_ascii_of_string]. destruct skip as [|k]; cbn [Os.replace_go].
    + destruct (String.prefix old (String c s)).
      * rewrite chars_append, elem_of_app. intros [H|H]; [right; exact H|].
        apply IH in H as [H|H]; [left; right; exact H|right; exact H].
      * cbn [list_ascii_of_string]. rewrite elem_of_cons.
        intros [->|H]; [left; left|].
        apply IH in H as [H|H]; [left; right; exact H|right; exact H].
    + intros H. apply IH in H as [H|H]; [left; right; exact H|right; exact H].
Qed.

Lemma replace_single_removes (c : ascii) (new s : string) :
  c ∉ list_ascii_of_string new ->
  c ∉ list_ascii_of_string (Os.replace (String c EmptyString) new s).
Proof.
  intros Hnew. unfold Os.replace. induction s as [|a s IH].
  - apply not_elem_of_nil.
  - cbn [Os.replace_go String.prefix String.length Nat.sub].
    destruct (ascii_dec c a) as [->|Hne].
    + replace (String.prefix EmptyString s) with true by (destruct s; reflexivity).
      rewrite chars_append, elem_of_app. tauto.
    + cbn [list_ascii_of_string]. rewrite elem_of_cons.
      intros [H|H]; [congruence|tauto].
Qed.

Lemma path_join_chars (a b : string) (x : ascii) :
  x ∈ list_ascii_of_string (Os.path_join a b) ->
  x ∈ list_ascii_of_string a ∨ x ∈ list_ascii_of_string b ∨ x = "/"%char.
Proof.
  unfold Os.path_join. destruct (String.prefix "/" b); [tauto|].
  case_bool_decide; [tauto|].
  assert (x ∈ list_ascii_of_string (a +:+ b) ->
          x ∈ list_ascii_of_string a ∨ x ∈ list_ascii_of_string b ∨ x = "/"%char) as H1.
  { rewrite chars_append, elem_of_app. tauto. }
  assert (x ∈ list_ascii_of_string (a +:+ "/" +:+ b) ->
          x ∈ list_ascii_of_string a ∨ x ∈ list_ascii_of_string b ∨ x = "/"%char) as H2.
  { rewrite !chars_append, !elem_of_app. simpl. rewrite elem_of_cons, elem_of_nil.
    tauto. }
  destruct (String.get _ a) as [c|]; [|exact H2].
  destruct c as [[] [] [] [] [] [] [] []]; first [exact H1|exact H2].
Qed.

(** X25: the file name is made friendly for the event type only: the
    characters [<] and [>] occur in the cache file name only if they
    occur in the cache directory or in the date. *)
Theorem file_name_without_angle_brackets (event_type cache_dir current_date : string)
    (c : ascii) :
  c = "<"%char ∨ c = ">"%char ->
  c ∉ list_ascii_of_string cache_dir ->
  c ∉ list_ascii_of_string current_date ->
  c ∉ list_ascii_of_string (_get_cache_filename event_type cache_dir current_date).
Proof.
  intros Hc Hdir Hdate Hin. unfold _get_cache_filename in Hin.
  apply path_join_chars in Hin as [Hin|[Hin|Hin]].
  - exact (Hdir Hin).
  - rewrite !chars_append, !elem_of_app in Hin.
    destruct Hin as [Hin|[Hin|[Hin|Hin]]].
    + destruct Hc as [-> | ->].
      * apply replace_go_chars in Hin as [Hin|Hin].
        -- revert Hin. apply replace_single_removes.
           simpl. rewrite elem_of_cons, elem_of_nil. intros [H|[]]. discriminate H.
        -- simpl in Hin. rewrite elem_of_cons, elem_of_nil in Hin.
           destruct Hin as [H|[]]. discriminate H.
      * revert Hin. apply replace_single_removes.
        simpl. rewrite elem_of_cons, elem_of_nil. intros [H|[]]. discriminate H.
    + simpl in Hin. destruct Hc as [-> | ->];
        repeat (apply elem_of_cons in Hin as [Hin|Hin]; [discriminate Hin|]);
        apply elem_of_nil in Hin; exact Hin.
    + exact (Hdate Hin).
    + simpl in Hin. destruct Hc as [-> | ->];
        repeat (apply elem_of_cons in Hin as [Hin|Hin]; [discriminate Hin|]);
        apply elem_of_nil in Hin; exact Hin.
  - destruct Hc as [-> | ->]; discriminate Hin.
Qed.

Lemma prefix_empty (s : string) : String.prefix EmptyString s = true.
Proof. destruct s; reflexivity. Qed.

Lemma prefix_slash_cons (c : ascii) (s1 s2 : string) :
  String.prefix "/" (String c s1) = String.prefix "/" (String c s2).
Proof.
  cbn [String.prefix]. destruct (ascii_dec "/" c); [|reflexivity].
  rewrite !prefix_empty. reflexivity.
Qed.

Lemma prefix_slash_append (a b : string) :
  a ≠ EmptyString -> String.prefix "/" (a +:+ b) = String.prefix "/" a.
Proof. destruct a as [|c a]; [congruence|]. intros _. apply prefix_slash_cons. Qed.

Lemma replace_keeps_no_slash (old s : string) :
  String.prefix "/" s = false -> String.prefix "/" (Os.replace old "_" s) = false.
Proof.
  unfold Os.replace. destruct s as [|c s]; [intros _; reflexivity|].
  intros Hc. cbn [Os.replace_go].
  destruct (String.prefix old (String c s)); [reflexivity|].
  etrans; [apply (prefix_slash_cons c _ s)|exact Hc].
Qed.

Lemma prefix_append (a b : string) : String.prefix a (a +:+ b) = true.
Proof.
  induction a as [|c a IH]; [apply prefix_empty|].
  change (String c a +:+ b) with (String c (a +:+ b)). cbn [String.prefix].
  destruct (ascii_dec c c); [exact IH|congruence].
Qed.

Lemma path_join_inside (a b : string) :
  String.prefix "/" b = false -> String.prefix a (Os.path_join a b) = true.
Proof.
  intros Hb. unfold Os.path_join. rewrite Hb.
  case_bool_decide as Ha; [subst a; apply prefix_empty|].
  destruct (String.get _ a) as [c|]; [|apply prefix_append].
  destruct c as [[] [] [] [] [] [] [] []]; apply prefix_append.
Qed.

(** X26: the cache file lies under the cache directory, its name
    beginning with the directory, unless the event type begins with a
    slash: then [os.path.join] drops the directory and the file name is
    the same whatever the cache directory is. *)
Theorem cache_file_location (event_type cache_dir current_date : string) :
  if String.prefix "/" event_type
  then ∀ other_dir,
         _get_cache_filename event_type cache_dir current_date
         = _get_cache_filename event_type other_dir current_date
  else String.prefix cache_dir
         (_get_cache_filename event_type cache_dir current_date) = true.
Proof.
  destruct (String.prefix "/" event_type) eqn:Hslash.
  - intros other_dir. destruct event_type as [|c rest]; [discriminate|].
    cbn [String.prefix] in Hslash.
    destruct (ascii_dec "/" c) as [<-|]; [|discriminate].
    assert (∀ dir, _get_cache_filename (String "/" rest) dir current_date
                   = Os.replace ">" "_" (Os.replace "<" "_"
                       (Os.replace "::" "_" (String "/" rest)))
                     +:+ "_events_" +:+ current_date +:+ ".json") as Hname.
    { intros dir. unfold _get_cache_filename, Os.path_join.
      assert (∃ safe, Os.replace ">" "_" (Os.replace "<" "_"
                        (Os.replace "::" "_" (String "/" rest))) = String "/" safe)
        as [safe ->] by (eexists; reflexivity).
      change (String "/" safe +:+ ?x) with (String "/" (safe +:+ x)).
      cbn [String.prefix]. destruct (ascii_dec "/" "/"); [|congruence].
      rewrite prefix_empty. reflexivity. }
    rewrite !Hname. reflexivity.
  - unfold _get_cache_filename. apply path_join_inside.
    assert (String.prefix "/"
              (Os.replace ">" "_" (Os.replace "<" "_" (Os.replace "::" "_" event_type)))
            = false) as Hsafe by (do 3 apply replace_keeps_no_slash; exact Hslash).
    destruct (Os.replace ">" "_" (Os.replace "<" "_" (Os.replace "::" "_" event_type)))
      as [|c safe]; [reflexivity|].
    etrans; [apply (prefix_slash_cons c _ safe)|exact Hsafe].
Qed.

Lemma append_inv_head (a b1 b2 : string) : a +:+ b1 = a +:+ b2 -> b1 = b2.
Proof.
  induction a as [|c a IH]; [intros H; exact H|].
  change (String c a +:+ b1) with (String c (a +:+ b1)).
  change (String c a +:+ b2) with (String c (a +:+ b2)).
  intros [= H]. apply IH, H.
Qed.

Lemma append_inv_tail (a1 a2 b : string) : a1 +:+ b = a2 +:+ b -> a1 = a2.
Proof.
  intros H. apply (f_equal list_ascii_of_string) in H.
  rewrite !chars_append in H. apply app_inv_tail in H.
  rewrite <- (string_of_list_ascii_of_string a1), <- (string_of_list_ascii_of_string a2).
  f_equal. exact H.
Qed.

Lemma path_join_inv (a b1 b2 : string) :
  String.prefix "/" b1 = String.prefix "/" b2 ->
  Os.path_join a b1 = Os.path_join a b2 -> b1 = b2.
Proof.
  unfold Os.path_join. intros <-.
  destruct (String.prefix "/" b1); [tauto|].
  case_bool_decide as Ha; [tauto|].
  assert (a +:+ "/" +:+ b1 = a +:+ "/" +:+ b2 -> b1 = b2) as Hslash.
  { intros Heq. apply append_inv_head in Heq. injection Heq as Heq. exact Heq. }
  destruct (String.get _ a) as [c|]; [|exact Hslash].
  destruct c as [[] [] [] [] [] [] [] []];
    first [exact Hslash|apply append_inv_head].
Qed.

(** X27: for one event type and one cache directory, two dates give
    the same cache file name only if they are the same date: the list
    cached on one date is never the file of another date. *)
Theorem other_date_other_file (event_type cache_dir date1 date2 : string) :
  _get_cache_filename event_type cache_dir date1
  = _get_cache_filename event_type cache_dir date2 ->
  date1 = date2.
Proof.
  unfold _get_cache_filename.
  set (safe := Os.replace ">" "_" (Os.replace "<" "_" (Os.replace "::" "_" event_type))).
  intros H. apply path_join_inv in H.
  - apply append_inv_head in H. apply append_inv_head in H.
    apply append_inv_tail in H. exact H.
  - assert (∀ rest, String.prefix "/" (safe +:+ "_events_" +:+ rest)
                    = String.prefix "/" (safe +:+ "_events_")) as Hhead.
    { intros rest. destruct safe as [|c safe']; [reflexivity|]. apply prefix_slash_cons. }
    rewrite !Hhead. reflexivity.
Qed.

(** * Further instances on sample data *)



Lemma running_invariant_one_page :
  let st := {| all_events_of_type := [Scenario.e1; Scenario.e2];
               offset := 2; page := 2 |} in
  length [ {| var_event_type := "T"; var_limit := 2; var_offset := 0 |} ]
  = length [Sample.page_of [Scenario.e1; Scenario.e2]]
  ∧ offset st = Z.of_nat (length [Sample.page_of [Scenario.e1; Scenario.e2]]) * 2
  ∧ page st = 1 + Z.of_nat (length [Sample.page_of [Scenario.e1; Scenario.e2]])
  ∧ offset st <= Z.of_nat (length (all_events_of_type st)).
Proof.
  intros st.
  apply (running_invariant "T" 2 [Sample.page_of [Scenario.e1; Scenario.e2]]
           [ {| var_event_type := "T"; var_limit := 2; var_offset := 0 |} ] st).
  reflexivity.
Defined.


Lemma accumulated_is_prefix_two_pages :
  [Scenario.e1; Scenario.e2] `prefix_of` [Scenario.e1; Scenario.e2; Scenario.e3].
Proof.
  apply (accumulated_is_prefix "T" 2 [Sample.page_of [Scenario.e1; Scenario.e2]]
           [Sample.page_of [Scenario.e3]]
           [ {| var_event_type := "T"; var_limit := 2; var_offset := 0 |} ]
           {| all_events_of_type := [Scenario.e1; Scenario.e2];
              offset := 2; page := 2 |}
           [Scenario.e1; Scenario.e2; Scenario.e3]).
  - reflexivity.
  - reflexivity.
Defined.

Lemma order_does_not_matter_swap :
  fst (calculate_cumulative_amount [Scenario.e1; Scenario.e3])
  = fst (calculate_cumulative_amount [Scenario.e3; Scenario.e1])
  ∧ final_counters [Scenario.e1; Scenario.e3] = final_counters [Scenario.e3; Scenario.e1].
Proof.
  apply (order_does_not_matter [Scenario.e1; Scenario.e3] [Scenario.e3; Scenario.e1]).
  apply perm_swap.
Defined.

Lemma non_record_event_ends_main_number :
  results_summary [Scenario.e1; JInt 3] 50 ("0xA" :: ["0xB"]) = Raise AttributeError.
Proof.
  apply (non_record_event_ends_main [Scenario.e1; JInt 3] 50 "0xA" ["0xB"]).
  intros H. apply Forall_cons_1 in H as [_ H]. apply Forall_cons_1 in H as [H _].
  discriminate H.
Defined.

Lemma no_attributable_event_negative_threshold :
  check_address Sample.five_events (-1) "0xZ"
  = Return {| address := "0xZ";
              meets_criteria := false;
              cumulative_amount := 0;
              events_found := 0;
              error := None |}.
Proof.
  apply (no_attributable_event Sample.five_events (-1) "0xZ").
  - repeat constructor.
  - reflexivity.
Defined.


Lemma threshold_monotone_five_events :
  check_address Sample.five_events 10 "0xA"
  = Return {| address := "0xA";
              meets_criteria := true;
              cumulative_amount := 60;
              events_found := 3;
              error := None |}.
Proof.
  apply (threshold_monotone Sample.five_events 10 50 "0xA"
           {| address := "0xA"; meets_criteria := true; cumulative_amount := 60;
              events_found := 3; error := None |}).
  - lia.
  - reflexivity.
  - reflexivity.
Defined.

Lemma entries_are_independent_five_events :
  Forall2 (fun addr r =>
             address r = addr
             ∧ results_summary Sample.five_events 50 [addr] = Return [r])
    ["0xA"; "0xB"]
    [ {| address := "0xA"; meets_criteria := true; cumulative_amount := 60;
         events_found := 3; error := None |};
      {| address := "0xB"; meets_criteria := false; cumulative_amount := 7;
         events_found := 1; error := None |} ].
Proof.
  apply (entries_are_independent Sample.five_events 50 ["0xA"; "0xB"]).
  reflexivity.
Defined.

Lemma found_events_bound_five_events :
  (sum_list (events_found <$>
     [ {| address := "0xA"; meets_criteria := true; cumulative_amount := 60;
          events_found := 3; error := None |};
       {| address := "0xB"; meets_criteria := false; cumulative_amount := 7;
          events_found := 1; error := None |} ])
   <= length Sample.five_events)%nat.
Proof.
  apply (found_events_bound Sample.five_events 50 ["0xA"; "0xB"]).
  - refine (bool_decide_unpack _ _). vm_compute. exact I.
  - reflexivity.
Defined.

Lemma no_cache_fetches_cached_world :
  requests_sent
    (obtain_events JsonText.dump JsonText.load Scenario.fresh_args Scenario.second_world)
  = (fetch_all_events_by_type (event_type Scenario.fresh_args)
       (limit Scenario.fresh_args) (endpoint Scenario.second_world)).1
  ∧ all_target_events
      (obtain_events JsonText.dump JsonText.load Scenario.fresh_args Scenario.second_world)
    = (fetch_all_events_by_type (event_type Scenario.fresh_args)
         (limit Scenario.fresh_args) (endpoint Scenario.second_world)).2.
Proof.
  apply (no_cache_fetches JsonText.dump JsonText.load Scenario.fresh_args
           Scenario.second_world).
  reflexivity.
Defined.

Lemma cache_hit_second_world :
  obtain_events JsonText.dump JsonText.load Sample.args Scenario.second_world
  = {| fs_after := fs Scenario.second_world;
       requests_sent := [];
       all_target_events := Some [Scenario.e1; Scenario.e2] |}.
Proof.
  apply (cache_hit JsonText.dump JsonText.load Sample.args Scenario.second_world
           [Scenario.e1; Scenario.e2]).
  - reflexivity.
  - vm_compute. reflexivity.
  - vm_compute. reflexivity.
Defined.

Lemma cache_miss_first_world :
  requests_sent
    (obtain_events JsonText.dump JsonText.load Sample.args Sample.first_world)
  = (fetch_all_events_by_type (event_type Sample.args) (limit Sample.args)
       (endpoint Sample.first_world)).1
  ∧ all_target_events
      (obtain_events JsonText.dump JsonText.load Sample.args Sample.first_world)
    = (fetch_all_events_by_type (event_type Sample.args) (limit Sample.args)
         (endpoint Sample.first_world)).2.
Proof.
  apply (cache_miss_fetches JsonText.dump JsonText.load Sample.args Sample.first_world).
  vm_compute. reflexivity.
Defined.

Lemma unwritable_cache_locked_world :
  files (fs_after (obtain_events JsonText.dump JsonText.load Sample.args
                     Scenario.locked_world))
  = files (fs Scenario.locked_world)
  ∧ requests_sent
      (obtain_events JsonText.dump JsonText.load Sample.args Scenario.locked_world)
    = (fetch_all_events_by_type (event_type Sample.args) (limit Sample.args)
         (endpoint Scenario.locked_world)).1
  ∧ all_target_events
      (obtain_events JsonText.dump JsonText.load Sample.args Scenario.locked_world)
    = (fetch_all_events_by_type (event_type Sample.args) (limit Sample.args)
         (endpoint Scenario.locked_world)).2.
Proof.
  apply (unwritable_cache_tolerated JsonText.dump JsonText.load Sample.args
           Scenario.locked_world).
  left. vm_compute. reflexivity.
Defined.


Lemma cache_keyed_by_file_name_alias :
  event_type Scenario.alias_args ≠ event_type Sample.args
  ∧ obtain_events JsonText.dump JsonText.load Scenario.alias_args Scenario.second_world
    = {| fs_after := fs Scenario.second_world;
         requests_sent := [];
         all_target_events := Some [Scenario.e1; Scenario.e2] |}.
Proof.
  split; [discriminate|].
  apply (cache_keyed_by_file_name JsonText.dump JsonText.load Sample.args
           Scenario.alias_args Sample.first_world Scenario.second_world
           [Scenario.e1; Scenario.e2]).
  - vm_compute. reflexivity.
  - apply not_elem_of_empty.
  - vm_compute. discriminate.
  - vm_compute. reflexivity.
  - vm_compute. reflexivity.
  - vm_compute. reflexivity.
  - reflexivity.
  - reflexivity.
  - reflexivity.
Defined.

Lemma addresses_file_accepted_two_addresses :
  load_addresses JsonText.load Scenario.file_command_line Scenario.addresses_fs
  = inr ["0xA"; "0xB"]
  <-> JsonText.load (JsonText.dump (JList [JStr "0xA"; JStr "0xB"]))
      = Some (JList (JStr <$> ["0xA"; "0xB"])).
Proof.
  apply (addresses_file_accepted JsonText.load Scenario.file_command_line
           Scenario.addresses_fs "addresses.json"
           (JsonText.dump (JList [JStr "0xA"; JStr "0xB"])) ["0xA"; "0xB"]).
  - reflexivity.
  - discriminate.
  - apply not_elem_of_empty.
  - vm_compute. reflexivity.
Defined.

Lemma no_address_name_error_blank :
  run_main JsonText.dump JsonText.load Scenario.blank_command_line Sample.first_world
  = (fs Sample.first_world, [], NameError).
Proof.
  apply (no_address_name_error JsonText.dump JsonText.load Scenario.blank_command_line
           Sample.first_world).
  left. split; reflexivity.
Defined.

Lemma rejected_before_any_effect_blank :
  fs Sample.first_world = fs Sample.first_world ∧ @nil variables = [].
Proof.
  apply (rejected_before_any_effect JsonText.dump JsonText.load
           Scenario.blank_command_line Sample.first_world
           (fs Sample.first_world) [] NameError).
  - reflexivity.
  - left. reflexivity.
Defined.

Lemma file_name_without_angle_brackets_sample :
  "<"%char ∉ list_ascii_of_string
    (_get_cache_filename "0x1::coin::Coin<0x1::aptos_coin::AptosCoin>" "data/cache"
       "20250314").
Proof.
  apply (file_name_without_angle_brackets
           "0x1::coin::Coin<0x1::aptos_coin::AptosCoin>" "data/cache" "20250314" "<"%char).
  - left. reflexivity.
  - refine (bool_decide_unpack _ _). vm_compute. exact I.
  - refine (bool_decide_unpack _ _). vm_compute. exact I.
Defined.

Lemma other_date_other_file_same_day :
  "20250314" = "20250314".
Proof.
  apply (other_date_other_file (event_type Sample.args) (cache_dir Sample.args)
           "20250314" "20250314").
  reflexivity.
Defined.
